(** * ExifTool helper scripts: a shallow embedding

    The repository holds two Python scripts around the ExifTool command line:

    - [tools/metadata_dump.py] builds an ExifTool command line and runs it
      over a directory tree, writing the CSV it prints to a file;
    - [examples/json_summary.py] loads ExifTool's JSON output into a pandas
      table, summarises every column and compares two summaries.

    Each script is embedded as a module of pure functions.  Python strings
    are sequences of code points below 256 ([string]), Python integers are
    [Z], exceptions are values of [exn] carried by [result], and the file
    system touched by the dump runner is an explicit tree threaded through
    a small state-and-error monad. *)

From Stdlib Require Import ZArith String Ascii List Bool Lia Permutation.
From stdpp Require Import base tactics option list sets strings pretty sorting.

Set Warnings "-register-all,-clear-no-such-hyp".

Local Open Scope string_scope.
Local Open Scope list_scope.
Local Open Scope Z_scope.

(** ** Python prelude: exceptions and [str] methods *)

Module Py.

(** The exception classes the two scripts raise or let through. *)
Inductive exn : Type :=
| ValueError (msg : string)
| TypeError (msg : string)
| KeyError (key : string)
| FileNotFoundError (msg : string)
| FileExistsError (msg : string)
| NotADirectoryError (msg : string)
| IsADirectoryError (msg : string)
| CalledProcessError (returncode : Z) (cmd : list string).

Inductive result (A : Type) : Type :=
| Ok (a : A)
| Raise (e : exn).
Arguments Ok {A} a.
Arguments Raise {A} e.

Definition bind {A B} (m : result A) (k : A -> result B) : result B :=
  match m with
  | Ok a => k a
  | Raise e => Raise e
  end.

(** [c.isspace()] for a code point below 256: tab to carriage return,
    the four separators 28 to 31, space, NEL (133) and the no-break
    space (160). *)
Definition isspace (c : ascii) : bool :=
  let n := nat_of_ascii c in
  ((9 <=? n) && (n <=? 13) || (28 <=? n) && (n <=? 32)
   || (n =? 133) || (n =? 160))%nat.

(** [c.lower()] for a code point below 256: A to Z and the Latin-1
    capitals 192 to 222 (the multiplication sign 215 apart) move up
    by 32. *)
Definition lower_char (c : ascii) : ascii :=
  let n := nat_of_ascii c in
  if ((65 <=? n) && (n <=? 90)
      || (192 <=? n) && (n <=? 222) && negb (n =? 215))%nat
  then ascii_of_nat (n + 32) else c.

Fixpoint lower (s : string) : string :=
  match s with
  | EmptyString => EmptyString
  | String c s' => String (lower_char c) (lower s')
  end.

Fixpoint lstrip (s : string) : string :=
  match s with
  | EmptyString => EmptyString
  | String c s' => if isspace c then lstrip s' else s
  end.

Fixpoint rstrip (s : string) : string :=
  match s with
  | EmptyString => EmptyString
  | String c s' =>
      match rstrip s' with
      | EmptyString => if isspace c then EmptyString else String c EmptyString
      | r => String c r
      end
  end.

(** [s.strip()] *)
Definition strip (s : string) : string := rstrip (lstrip s).

(** [s.startswith(".")] *)
Definition startswith_dot (s : string) : bool :=
  match s with
  | String "."%char _ => true
  | _ => false
  end.

(** [s[1:]] *)
Definition tail (s : string) : string :=
  match s with
  | EmptyString => EmptyString
  | String _ s' => s'
  end.

(** What follows a prefix in a string that starts with it. *)
Fixpoint after_prefix (prefix s : string) : option string :=
  match prefix, s with
  | EmptyString, _ => Some s
  | String a prefix', String b s' =>
      if Ascii.eqb a b then after_prefix prefix' s' else None
  | String _ _, EmptyString => None
  end.

(** [s.removeprefix(prefix)] *)
Definition removeprefix (prefix s : string) : string :=
  default s (after_prefix prefix s).

(** [not s] for a string: true on the empty string only. *)
Definition falsy (s : string) : bool :=
  match s with EmptyString => true | _ => false end.

(** [sep.join(l)] *)
Fixpoint join (sep : string) (l : list string) : string :=
  match l with
  | [] => ""
  | [x] => x
  | x :: l' => x +:+ sep +:+ join sep l'
  end.

(** [str(n)] and [f"{n}"] for an integer: decimal digits with a minus
    sign on negative numbers. *)
Definition str_of_int (n : Z) : string := pretty n.

End Py.

Import Py.

Notation "x <- m ;; k" := (Py.bind m (fun x => k))
  (at level 100, m at next level, right associativity).

(** ** tools/metadata_dump.py *)

Module MetadataDump.

(** A [pathlib.Path]: whether it is anchored at the root, and its
    components.  Paths are taken free of symbolic links and of [..]. *)
Record Path : Type := mkPath { absolute : bool; parts : list string }.

(** [str(path)] *)
Definition path_str (p : Path) : string :=
  match absolute p, parts p with
  | true, ps => "/" +:+ join "/" ps
  | false, [] => "."
  | false, ps => join "/" ps
  end.

Definition DEFAULT_EXTENSIONS : list string :=
  ["pdf"; "jpg"; "jpeg"; "png"; "tif"; "tiff"; "heic"; "mp4"; "mov"; "avi";
   "mkv"].

Definition DEFAULT_OUTPUT : string := "metadata_master.csv".

(** One turn of the loop of [normalize_extensions]: strip and lowercase,
    drop one leading dot, skip what is left empty, append otherwise. *)
Definition normalize_step (normalized : list string) (ext : string)
  : list string :=
  let ext := lower (strip ext) in
  let ext := if startswith_dot ext then tail ext else ext in
  if falsy ext then normalized else normalized ++ [ext].

Definition normalize_extensions (extensions : list string)
  : result (list string) :=
  let normalized := fold_left normalize_step extensions [] in
  match normalized with
  | [] => Raise (ValueError "At least one file extension must be provided.")
  | _ => Ok normalized
  end.

(** [cmd.extend(["-ext", ext])] for every normalized extension. *)
Definition extend_ext (cmd : list string) (ext : string) : list string :=
  cmd ++ ["-ext"; ext].

Definition build_exiftool_command (root_dir : Path) (extensions : list string)
    (request_all : Z) (largefile_support recursive : bool)
    (exiftool_cmd : string) : result (list string) :=
  normalized_exts <- normalize_extensions extensions ;;
  let cmd := [exiftool_cmd; "-api"; "RequestAll=" +:+ str_of_int request_all] in
  let cmd := if largefile_support
             then cmd ++ ["-api"; "largefilesupport=1"] else cmd in
  let cmd := cmd ++ ["-G1"; "-csv"] in
  let cmd := if recursive then cmd ++ ["-r"] else cmd in
  let cmd := fold_left extend_ext normalized_exts cmd in
  let cmd := cmd ++ [path_str root_dir] in
  Ok cmd.

(** *** The file system and the process environment

    A file system is the list of entries of its root directory; a node is
    a regular file with its text or a directory with its entries.  An
    entry name occurs once in a directory: lookups take the first entry of
    a name, and every update replaces it in place. *)
Inductive node : Type :=
| File (data : string)
| Dir (entries : list (string * node)).

Definition entries_t : Type := list (string * node).

Fixpoint assoc (name : string) (es : entries_t) : option node :=
  match es with
  | [] => None
  | (k, n) :: es' => if String.eqb k name then Some n else assoc name es'
  end.

(** Replace the entry [name], or append it when the name is free. *)
Fixpoint put (name : string) (n : node) (es : entries_t) : entries_t :=
  match es with
  | [] => [(name, n)]
  | (k, m) :: es' =>
      if String.eqb k name then (k, n) :: es' else (k, m) :: put name n es'
  end.

Fixpoint del (name : string) (es : entries_t) : entries_t :=
  match es with
  | [] => []
  | (k, m) :: es' =>
      if String.eqb k name then es' else (k, m) :: del name es'
  end.

(** The node a list of components leads to, from a node. *)
Fixpoint lookup_node (p : list string) (n : node) : option node :=
  match p with
  | [] => Some n
  | c :: p' =>
      match n with
      | Dir es =>
          match assoc c es with
          | Some n' => lookup_node p' n'
          | None => None
          end
      | File _ => None
      end
  end.

(** The node a list of components leads to, from the root. *)
Definition lookup (p : list string) (es : entries_t) : option node :=
  lookup_node p (Dir es).

(** [path.exists()] and [path.is_dir()] on resolved components. *)
Definition exists_ (p : list string) (fs : entries_t) : bool :=
  match lookup p fs with Some _ => true | None => false end.

Definition is_dir (p : list string) (fs : entries_t) : bool :=
  match lookup p fs with Some (Dir _) => true | _ => false end.

(** A chain of fresh directories [c1/c2/.../cn], as an entry list. *)
Fixpoint fresh_dirs (p : list string) : entries_t :=
  match p with
  | [] => []
  | c :: p' => [(c, Dir (fresh_dirs p'))]
  end.

(** The text of an [OSError]: error number, reason and the path given to
    the failing call. *)
Definition os_msg (errno reason at_path : string) : string :=
  "[Errno " +:+ errno +:+ "] " +:+ reason +:+ ": '" +:+ at_path +:+ "'".

Definition eexist (at_path : string) : exn :=
  FileExistsError (os_msg "17" "File exists" at_path).
Definition enotdir (at_path : string) : exn :=
  NotADirectoryError (os_msg "20" "Not a directory" at_path).
Definition enoent (at_path : string) : exn :=
  FileNotFoundError (os_msg "2" "No such file or directory" at_path).
Definition eisdir (at_path : string) : exn :=
  IsADirectoryError (os_msg "21" "Is a directory" at_path).

(** [path.mkdir(parents=True, exist_ok=True)]: existing directories are
    kept, missing ones are created, and a regular file in the way raises
    ([FileExistsError] when it is the last component, [NotADirectoryError]
    before).  [at_path] is the path as the error message prints it. *)
Fixpoint mkdir_parents (at_path : string) (p : list string) (es : entries_t)
  : result entries_t :=
  match p with
  | [] => Ok es
  | c :: p' =>
      match assoc c es with
      | None => Ok (put c (Dir (fresh_dirs p')) es)
      | Some (Dir es') =>
          es'' <- mkdir_parents at_path p' es' ;;
          Ok (put c (Dir es'') es)
      | Some (File _) =>
          match p' with
          | [] => Raise (eexist at_path)
          | _ => Raise (enotdir at_path)
          end
      end
  end.

(** [path.unlink()] *)
Fixpoint unlink (at_path : string) (p : list string) (es : entries_t)
  : result entries_t :=
  match p with
  | [] => Raise (eisdir at_path)
  | [c] =>
      match assoc c es with
      | None => Raise (enoent at_path)
      | Some (Dir _) => Raise (eisdir at_path)
      | Some (File _) => Ok (del c es)
      end
  | c :: p' =>
      match assoc c es with
      | None => Raise (enoent at_path)
      | Some (File _) => Raise (enotdir at_path)
      | Some (Dir es') =>
          es'' <- unlink at_path p' es' ;;
          Ok (put c (Dir es'') es)
      end
  end.

(** Opening [p] for writing and filling it with [data]: the file is
    created or truncated; its directory has to exist. *)
Fixpoint write_file (at_path : string) (p : list string) (data : string)
    (es : entries_t) : result entries_t :=
  match p with
  | [] => Raise (eisdir at_path)
  | [c] =>
      match assoc c es with
      | Some (Dir _) => Raise (eisdir at_path)
      | _ => Ok (put c (File data) es)
      end
  | c :: p' =>
      match assoc c es with
      | None => Raise (enoent at_path)
      | Some (File _) => Raise (enotdir at_path)
      | Some (Dir es') =>
          es'' <- write_file at_path p' data es' ;;
          Ok (put c (Dir es'') es)
      end
  end.

(** What the run depends on and does not change: the working directory,
    the commands [shutil.which] finds on the search path, and the child
    process, which is opaque: the text it prints and its exit status. *)
Record env : Type := mkEnv {
  cwd : list string;
  which : string -> option string;
  child : list string -> string * Z }.

(** What the run changes: the file system, the child processes run so
    far and the lines printed. *)
Record world : Type := mkWorld {
  fs : entries_t;
  spawned : list (list string);
  console : list string }.

(** [path.resolve()], without symbolic links: a relative path is taken
    from the working directory. *)
Definition resolve (e : env) (p : Path) : list string :=
  if absolute p then parts p else cwd e ++ parts p.

(** [path.parent] on resolved components; the root is its own parent. *)
Definition parent (p : list string) : list string := removelast p.

(** [str(path)] of resolved components. *)
Definition abs_str (p : list string) : string := path_str (mkPath true p).

(** A step of the runner: a result and the world after it. *)
Definition action (A : Type) : Type := world -> result A * world.

Definition ret {A} (a : A) : action A := fun w => (Ok a, w).
Definition raise {A} (e : exn) : action A := fun w => (Raise e, w).
Definition and_then {A B} (m : action A) (k : A -> action B) : action B :=
  fun w => match m w with
           | (Ok a, w') => k a w'
           | (Raise e, w') => (Raise e, w')
           end.

(** A file-system operation as a step: the tree changes on success only. *)
Definition on_fs (op : entries_t -> result entries_t) : action unit :=
  fun w => match op (fs w) with
           | Ok fs' => (Ok tt, mkWorld fs' (spawned w) (console w))
           | Raise e => (Raise e, w)
           end.

Definition print (line : string) : action unit :=
  fun w => (Ok tt, mkWorld (fs w) (spawned w) (console w ++ [line])).

(** Lifting a pure, fallible computation. *)
Definition lift {A} (m : result A) : action A := fun w => (m, w).

(** [with path.open("w") as handle: subprocess.run(cmd, check=True,
    stdout=handle)]: the file is opened, the child runs and its output
    lands in the file, and a non-zero exit status raises afterwards. *)
Definition run_child (e : env) (cmd : list string) (out : list string)
  : action unit :=
  fun w =>
    let '(text, status) := child e cmd in
    match write_file (abs_str out) out text (fs w) with
    | Raise x => (Raise x, w)
    | Ok fs' =>
        let w' := mkWorld fs' (spawned w ++ [cmd]) (console w) in
        if status =? 0 then (Ok tt, w')
        else (Raise (CalledProcessError status cmd), w')
    end.

Definition get_fs : action entries_t := fun w => (Ok (fs w), w).

Notation "x <~ m ;; k" := (and_then m (fun x => k))
  (at level 100, m at next level, right associativity).

(** The guard on an existing destination: refuse without [force], delete
    with it. *)
Definition clear_destination (resolved_output : list string) (force : bool)
  : action unit :=
  t <~ get_fs ;;
  if exists_ resolved_output t then
    if negb force then
      raise (FileExistsError
               ("Output file already exists: "
                +:+ abs_str resolved_output
                +:+ ". Use --force to overwrite."))
    else on_fs (unlink (abs_str resolved_output) resolved_output)
  else ret tt.

Definition run_exiftool_metadata_dump (e : env) (root_dir output_csv : Path)
    (extensions : list string) (request_all : Z)
    (largefile_support recursive : bool) (exiftool_cmd : string)
    (force : bool) : action unit :=
  t <~ get_fs ;;
  if negb (is_dir (resolve e root_dir) t) then
    raise (FileNotFoundError
             ("Root directory does not exist: " +:+ path_str root_dir))
  else
    let resolved_output := resolve e output_csv in
    _ <~ on_fs (mkdir_parents (abs_str (parent resolved_output))
                  (parent resolved_output)) ;;
    match which e exiftool_cmd with
    | None =>
        raise (FileNotFoundError
                 ("ExifTool executable '" +:+ exiftool_cmd
                  +:+ "' could not be found on PATH."))
    | Some _ =>
        _ <~ clear_destination resolved_output force ;;
        cmd <~ lift (build_exiftool_command root_dir extensions request_all
                       largefile_support recursive exiftool_cmd) ;;
        _ <~ print "Running ExifTool... this can take a while on large trees." ;;
        _ <~ print ("Command: " +:+ join " " cmd) ;;
        _ <~ run_child e cmd resolved_output ;;
        print ("Done. Metadata written to: " +:+ abs_str resolved_output)
    end.

(** Entry names are unique in every directory of a well-formed tree. *)
Fixpoint wf_node (n : node) : bool :=
  match n with
  | File _ => true
  | Dir es =>
      bool_decide (NoDup es.*1)
      && (fix each (es : list (string * node)) : bool :=
            match es with
            | [] => true
            | (_, m) :: es' => wf_node m && each es'
            end) es
  end.

Definition wf_fs (es : entries_t) : bool := wf_node (Dir es).

(** The arguments of the command line, as [parse_args] returns them. *)
Module Args.
Record t : Type := mk {
  root_dir : Path;
  output : Path;
  extensions : list string;
  request_all : Z;
  no_largefile_support : bool;
  no_recursive : bool;
  exiftool_cmd : string;
  force : bool }.
End Args.

(** [main], after the arguments are parsed: the exit status, the lines
    printed on standard error and the world after the run.  [exc_text] is
    [str(exc)], the text the Python library gives an exception. *)
Definition main (exc_text : exn -> string) (e : env) (args : Args.t)
  : world -> Z * list string * world :=
  fun w =>
    match run_exiftool_metadata_dump e (Args.root_dir args) (Args.output args)
            (Args.extensions args) (Args.request_all args)
            (negb (Args.no_largefile_support args))
            (negb (Args.no_recursive args)) (Args.exiftool_cmd args)
            (Args.force args) w with
    | (Ok _, w') => (0, [], w')
    | (Raise exc, w') => (1, ["Error: " +:+ exc_text exc], w')
    end.

End MetadataDump.

(** ** examples/json_summary.py *)

Module JsonSummary.

(** *** Python values, as [json.load] returns them *)

(** The value of a Python [float]: not-a-number, an infinity, or the
    fraction [num / den] it denotes. *)
Inductive pyfloat : Type :=
| FNaN
| FInf (negative : bool)
| FFin (num : Z) (den : positive).

(** A [dict] keeps its items in insertion order. *)
Inductive value : Type :=
| VNone
| VBool (b : bool)
| VInt (n : Z)
| VFloat (x : pyfloat)
| VStr (s : string)
| VList (elems : list value)
| VDict (items : list (string * value)).

Definition dict : Type := list (string * value).

(** [type(v).__name__] *)
Definition type_name (v : value) : string :=
  match v with
  | VNone => "NoneType"
  | VBool _ => "bool"
  | VInt _ => "int"
  | VFloat _ => "float"
  | VStr _ => "str"
  | VList _ => "list"
  | VDict _ => "dict"
  end.

(** [d.get(k)] *)
Fixpoint dict_get (k : string) (d : dict) : option value :=
  match d with
  | [] => None
  | (k', v) :: d' => if String.eqb k' k then Some v else dict_get k d'
  end.

(** [d[k] = v]: an existing key keeps its place, a new one goes last. *)
Fixpoint dict_set (k : string) (v : value) (d : dict) : dict :=
  match d with
  | [] => [(k, v)]
  | (k', v') :: d' =>
      if String.eqb k' k then (k', v) :: d' else (k', v') :: dict_set k v d'
  end.

(** [{**d1, **d2}] *)
Definition dict_update (d1 d2 : dict) : dict :=
  fold_left (fun acc kv => dict_set (fst kv) (snd kv) acc) d2 d1.

Definition is_dict (v : value) : bool :=
  match v with VDict _ => true | _ => false end.

(** *** The document loader *)

(** Opening and parsing the file at a path: the parsed top-level value,
    or the exception [open] or [json.load] raises. *)
Definition json_files : Type := string -> result value.

Definition _load_json_documents (files : json_files) (json_path : string)
  : result (list value) :=
  payload <- files json_path ;;
  match payload with
  | VList elems => Ok elems
  | VDict _ => Ok [payload]
  | _ =>
      Raise (ValueError
               ("Expected a dictionary or list of dictionaries in "
                +:+ json_path +:+ ", got " +:+ type_name payload
                +:+ " instead."))
  end.

(** *** pandas: tables

    A table with columns known only at run time is its column labels and
    its rows, every row holding one cell per column.  A cell is a Python
    value; column dtypes are not modelled.  A position no record fills
    holds NaN. *)
Record DataFrame : Type := mkFrame {
  columns : list string;
  rows : list (list value) }.

Definition nan : value := VFloat FNaN.

(** [pandas.isna] on a cell: [None] and NaN are missing. *)
Definition isna (v : value) : bool :=
  match v with
  | VNone | VFloat FNaN => true
  | _ => false
  end.

Definition notna (v : value) : bool := negb (isna v).

(** The flattening of [pandas.json_normalize(records, sep=".")],
    [_normalise_json]: every value that is not a dict (a list too) is a
    leaf, stored under the keys on the way to it joined by the separator.
    While the key built so far is empty the separator is taken off
    again, so that no name starts with a separator of the flattening's
    own.  A later leaf of the same name overwrites an earlier one. *)
Fixpoint normalise_json (data : value) (key_string : string)
    (normalized_dict : dict) : dict :=
  match data with
  | VDict items =>
      (fix each (items : list (string * value)) (acc : dict) : dict :=
         match items with
         | [] => acc
         | (key, v) :: rest =>
             let new_key := key_string +:+ "." +:+ key in
             let new_key :=
               if falsy key_string then removeprefix "." new_key
               else new_key in
             each rest (normalise_json v new_key acc)
         end) items normalized_dict
  | _ => dict_set key_string data normalized_dict
  end.

(** [_normalise_json_ordered], one record: its top-level values that are
    not dicts first, then the leaves of the others, flattened from the
    empty key.  A comprehension over the items of a dict keeps the items
    that pass its test, in their order. *)
Definition normalise_json_ordered (data : dict) : dict :=
  let top_dict_ := filter (fun kv => negb (is_dict (snd kv))) data in
  let nested_dict_ :=
    normalise_json (VDict (filter (fun kv => is_dict (snd kv)) data)) "" [] in
  dict_update top_dict_ nested_dict_.

(** A record of the list: a dict is flattened, a scalar gives the empty
    row.  A record that is itself a list makes the DataFrame constructor
    build the table from rows under numbered columns, with the elements
    as cells; a table here has named columns only, and that path is not
    followed: [None]. *)
Definition simple_json_normalize (record : value) : option dict :=
  match record with
  | VDict items => Some (normalise_json_ordered items)
  | VList _ => None
  | _ => Some []
  end.

(** Labels in order of first appearance. *)
Definition add_label (seen : list string) (k : string) : list string :=
  if existsb (String.eqb k) seen then seen else seen ++ [k].

Definition all_keys (ds : list dict) : list string :=
  fold_left (fun seen d => fold_left add_label (map fst d) seen) ds [].

(** [pandas.DataFrame(list_of_dicts)] *)
Definition frame_of_dicts (ds : list dict) : DataFrame :=
  let cols := all_keys ds in
  mkFrame cols
    (map (fun d => map (fun c => default nan (dict_get c d)) cols) ds).

Definition json_normalize (records : list value) : option DataFrame :=
  frame_of_dicts <$> mapM simple_json_normalize records.

(** Ordinary string comparison, code point by code point. *)
Definition str_le (a b : string) : Prop := String.compare a b <> Gt.
Definition str_lt (a b : string) : Prop := String.compare a b = Lt.

#[global] Instance str_le_dec a b : Decision (str_le a b).
Proof. unfold str_le. destruct (String.compare a b); [left|left|right]; congruence. Defined.

(** [sorted(labels)] *)
Definition sorted (labels : list string) : list string :=
  merge_sort str_le labels.

Fixpoint index_of (c : string) (cols : list string) : option nat :=
  match cols with
  | [] => None
  | c' :: cols' =>
      if String.eqb c' c then Some 0%nat else S <$> index_of c cols'
  end.

(** The cell of a row under a label; NaN where the frame has no such
    column. *)
Definition cell (f : DataFrame) (row : list value) (c : string) : value :=
  match index_of c (columns f) with
  | Some i => default nan (row !! i)
  | None => nan
  end.

(** [frame.reindex(labels, axis=1)] *)
Definition reindex_columns (labels : list string) (f : DataFrame) : DataFrame :=
  mkFrame labels (map (fun row => map (cell f row) labels) (rows f)).

Definition load_metadata_frame (files : json_files) (json_path : string)
  : result (option DataFrame) :=
  records <- _load_json_documents files json_path ;;
  Ok ((fun frame => reindex_columns (sorted (columns frame)) frame)
        <$> json_normalize records).

(** *** pandas: tables with fixed columns

    A table whose columns are known is a list of rows of a record type,
    each with its index label. *)
Abbreviation table R := (list (nat * R)) (only parsing).

(** The default index 0, 1, 2, ... *)
Definition range_index {R} (rs : list R) : table R :=
  zip (seq 0 (length rs)) rs.

(** [frame.reset_index(drop=True)] *)
Definition reset_index {R} (t : table R) : table R :=
  range_index (map snd t).

(** [frame.sort_values(key)] on a string column, ascending.  Rows of equal
    key come in the order of the merge sort below. *)
Definition sort_values {R} (key : R -> string) (t : table R) : table R :=
  merge_sort (fun a b => str_le (key (snd a)) (key (snd b))) t.

(** A row of a column summary.  The two statistics are integers where
    [summarize_columns] made the row; a summary read back from CSV may
    hold an empty cell, [None]. *)
Record SummaryRow : Type := mkSummary {
  Tag : string;
  NonNullCount : option Z;
  UniqueValues : option Z }.

(** [frame[column]]: the cells of a column, top to bottom. *)
Definition series (f : DataFrame) (column : string) : list value :=
  map (fun row => cell f row column) (rows f).

(** [int(series.notna().sum())] *)
Definition notna_sum (s : list value) : Z :=
  Z.of_nat (length (filter notna s)).

(** Lists and dicts cannot be hashed. *)
Definition hashable (v : value) : bool :=
  match v with
  | VList _ | VDict _ => false
  | _ => true
  end.

(** The number a [bool], [int] or finite [float] denotes, as a fraction. *)
Definition numeric (v : value) : option (Z * positive) :=
  match v with
  | VBool b => Some (if b then 1 else 0, 1%positive)
  | VInt n => Some (n, 1%positive)
  | VFloat (FFin n d) => Some (n, d)
  | _ => None
  end.

(** [a == b] on hashable values: numbers by value, infinities by sign,
    strings by content, [None] with itself. *)
Definition py_eqb (a b : value) : bool :=
  match numeric a, numeric b with
  | Some (n1, d1), Some (n2, d2) => n1 * Z.pos d2 =? n2 * Z.pos d1
  | None, None =>
      match a, b with
      | VNone, VNone => true
      | VStr s1, VStr s2 => String.eqb s1 s2
      | VFloat (FInf s1), VFloat (FInf s2) => Bool.eqb s1 s2
      | _, _ => false
      end
  | _, _ => false
  end.

(** The values of a list, each once, in order of first appearance. *)
Fixpoint unique_by {A} (eqb : A -> A -> bool) (seen l : list A) : list A :=
  match l with
  | [] => seen
  | x :: l' =>
      if existsb (eqb x) seen then unique_by eqb seen l'
      else unique_by eqb (seen ++ [x]) l'
  end.

(** [int(series.nunique(dropna=True))]: every cell is hashed, then the
    missing ones are dropped and the distinct ones counted. *)
Definition nunique (s : list value) : result Z :=
  match List.find (fun v => negb (hashable v)) s with
  | Some v => Raise (TypeError ("unhashable type: '" +:+ type_name v +:+ "'"))
  | None => Ok (Z.of_nat (length (unique_by py_eqb [] (filter notna s))))
  end.

(** The loop of [summarize_columns] over the columns. *)
Fixpoint summary_loop (f : DataFrame) (cols : list string)
    (summary_rows : list SummaryRow) : result (list SummaryRow) :=
  match cols with
  | [] => Ok summary_rows
  | column :: cols' =>
      let s := series f column in
      u <- nunique s ;;
      summary_loop f cols'
        (summary_rows ++ [mkSummary column (Some (notna_sum s)) (Some u)])
  end.

(** A table built from no rows has no column [Tag] to sort by. *)
Definition summarize_columns (f : DataFrame) : result (table SummaryRow) :=
  summary_rows <- summary_loop f (columns f) [] ;;
  match summary_rows with
  | [] => Raise (KeyError "Tag")
  | _ => Ok (reset_index (sort_values Tag (range_index summary_rows)))
  end.

(** A row of the outer join of two summaries on [Tag]: the key (column
    [Tag] of the joined table) and the statistics of either side. *)
Record MergedRow : Type := mkMerged {
  MTag : string;
  NonNullCount_old : option Z;
  UniqueValues_old : option Z;
  NonNullCount_new : option Z;
  UniqueValues_new : option Z }.

Definition has_tag (k : string) (r : SummaryRow) : bool := String.eqb (Tag r) k.

(** The joined rows of one key: every pairing of the rows of that key on
    the two sides, or the rows of one side with the other side empty. *)
Definition join_key (k : string) (ls rs : list SummaryRow) : list MergedRow :=
  match ls, rs with
  | [], _ =>
      map (fun r => mkMerged k None None (NonNullCount r) (UniqueValues r)) rs
  | _, [] =>
      map (fun l => mkMerged k (NonNullCount l) (UniqueValues l) None None) ls
  | _, _ =>
      flat_map
        (fun l =>
           map (fun r => mkMerged k (NonNullCount l) (UniqueValues l)
                           (NonNullCount r) (UniqueValues r)) rs) ls
  end.

(** [left.merge(right, on="Tag", how="outer", suffixes=("_old", "_new"))]:
    the union of the keys of both sides, in sorted order. *)
Definition merge_outer (left right : table SummaryRow) : table MergedRow :=
  let ls := map snd left in
  let rs := map snd right in
  let keys := sorted (fold_left add_label (map Tag ls ++ map Tag rs) []) in
  range_index
    (flat_map (fun k => join_key k (filter (has_tag k) ls) (filter (has_tag k) rs))
       keys).

(** Elementwise [!=] on two cells that may be empty: an empty cell is
    unequal to everything, itself included. *)
Definition ne (a b : option Z) : bool :=
  match a, b with
  | Some x, Some y => negb (x =? y)
  | _, _ => true
  end.

Definition mismatch (r : MergedRow) : bool :=
  ne (NonNullCount_old r) (NonNullCount_new r)
  || ne (UniqueValues_old r) (UniqueValues_new r).

Definition compare_summaries (new existing : table SummaryRow)
  : table MergedRow :=
  let merged := merge_outer existing new in
  let mismatched := filter (fun ir => mismatch (snd ir)) merged in
  reset_index (sort_values MTag mismatched).

End JsonSummary.

(** ** The specification's vocabulary

    Closed forms that follow the words of the specification, to compare
    the code above with. *)

Module Spec.

Import MetadataDump JsonSummary.

(** One extension, normalized: surrounding blanks stripped, lowercase,
    a leading dot removed; nothing when that leaves the empty string. *)
Definition normalize_one (ext : string) : option string :=
  let e := lower (strip ext) in
  let e := if startswith_dot e then tail e else e in
  if falsy e then None else Some e.

(** The normalized extensions of a list, in input order, duplicates
    kept. *)
Definition normalized (extensions : list string) : list string :=
  omap normalize_one extensions.

(** A string made of blanks and dots only. *)
Definition blank_or_dots (s : string) : bool :=
  forallb (fun c => isspace c || Ascii.eqb c ".") (list_ascii_of_string s).

(** The argument list the command builder is specified to return. *)
Definition command_layout (root_dir : Path) (exts : list string)
    (request_all : Z) (largefile_support recursive : bool)
    (exiftool_cmd : string) : list string :=
  [exiftool_cmd]
  ++ ["-api"; "RequestAll=" +:+ str_of_int request_all]
  ++ (if largefile_support then ["-api"; "largefilesupport=1"] else [])
  ++ ["-G1"; "-csv"]
  ++ (if recursive then ["-r"] else [])
  ++ flat_map (fun ext => ["-ext"; ext]) exts
  ++ [path_str root_dir].

Definition no_extension : exn :=
  ValueError "At least one file extension must be provided.".

(** The two errors of the dump runner's guards. *)
Definition conflict (resolved_output : list string) : exn :=
  FileExistsError ("Output file already exists: " +:+ abs_str resolved_output
                   +:+ ". Use --force to overwrite.").

Definition tool_missing (exiftool_cmd : string) : exn :=
  FileNotFoundError ("ExifTool executable '" +:+ exiftool_cmd
                     +:+ "' could not be found on PATH.").

(** The error of the document loader on a top-level value that is neither
    a list nor a dict: a value error whose text names the file and the
    type met. *)
Definition malformed (json_path type_met : string) : exn :=
  ValueError ("Expected a dictionary or list of dictionaries in "
              +:+ json_path +:+ ", got " +:+ type_met +:+ " instead.").

(** The type of a value as JSON names it. *)
Definition json_type (v : value) : string :=
  match v with
  | VNone => "null"
  | VBool _ => "boolean"
  | VInt _ | VFloat _ => "number"
  | VStr _ => "string"
  | VList _ => "array"
  | VDict _ => "object"
  end.

(** A word occurs in a text. *)
Definition mentions (word text : string) : bool :=
  match String.index 0 word text with
  | Some _ => true
  | None => false
  end.

(** The key paths of a value: the keys on the way down to every value that
    is not a dict. *)
Fixpoint leaf_paths (v : value) : list (list string) :=
  match v with
  | VDict items =>
      (fix each (items : list (string * value)) : list (list string) :=
         match items with
         | [] => []
         | (key, v') :: rest => map (cons key) (leaf_paths v') ++ each rest
         end) items
  | _ => [[]]
  end.

Definition key_paths (record : dict) : list (list string) :=
  leaf_paths (VDict record).

(** The leaves of a value: every value in it that is not a dict, with
    the keys on the way down to it, in the order of the document. *)
Fixpoint leaves (v : value) : list (list string * value) :=
  match v with
  | VDict items =>
      (fix each (items : list (string * value))
         : list (list string * value) :=
         match items with
         | [] => []
         | (key, v') :: rest =>
             map (fun pv => (key :: fst pv, snd pv)) (leaves v') ++ each rest
         end) items
  | _ => [([], v)]
  end.

(** A key path without the empty keys it starts with. *)
Fixpoint significant (path : list string) : list string :=
  match path with
  | EmptyString :: rest => significant rest
  | _ => path
  end.

(** The name of a key path: its keys joined by dots, the empty keys at
    its start left out.  For a path whose first key is not empty this is
    the dot-joined path. *)
Definition column_name (path : list string) : string :=
  join "." (significant path).

(** The key the flattening reaches from a key along a path. *)
Definition key_under (key_string : string) (path : list string) : string :=
  fold_left (fun s key => if falsy s then key else s +:+ "." +:+ key)
    path key_string.

(** The leaves of a value under the keys the flattening, started from
    [key_string], reaches them by. *)
Definition named_leaves (key_string : string) (v : value)
  : list (string * value) :=
  map (fun pv => (key_under key_string (fst pv), snd pv)) (leaves v).

Definition is_list (v : value) : bool :=
  match v with VList _ => true | _ => false end.

(** The tags of a summary and the two statistics it holds for a tag, both
    empty when the tag is absent. *)
Definition tags (summary : table SummaryRow) : list string :=
  map (fun ir => Tag (snd ir)) summary.

Definition stats_of (summary : table SummaryRow) (tag : string)
  : option Z * option Z :=
  match List.find (has_tag tag) (map snd summary) with
  | Some r => (NonNullCount r, UniqueValues r)
  | None => (None, None)
  end.

(** Two cells differ: an empty cell differs from everything. *)
Definition differ (a b : option Z) : Prop :=
  match a, b with
  | Some x, Some y => x <> y
  | _, _ => True
  end.

(** The invariant of a summary row: both statistics are integers, and
    [0 <= UniqueValues <= NonNullCount]. *)
Definition summary_invariant (r : SummaryRow) : Prop :=
  exists n u : Z,
    NonNullCount r = Some n /\ UniqueValues r = Some u /\ 0 <= u <= n.

(** The row of the outer join for a tag: the statistics of the existing
    summary and of the new one, empty on the side that lacks the tag. *)
Definition outer_row (new existing : table SummaryRow) (tag : string)
  : MergedRow :=
  mkMerged tag
    (fst (stats_of existing tag)) (snd (stats_of existing tag))
    (fst (stats_of new tag)) (snd (stats_of new tag)).

(** The keys of the outer join: the tags of both sides, each once, in
    ascending order. *)
Definition join_keys (new existing : table SummaryRow) : list string :=
  sorted (fold_left add_label
            (map Tag existing.*2 ++ map Tag new.*2) []).

(** What a file-system step keeps of a node found at [q] before it: a
    regular file with its content, a directory as a directory. *)
Definition kept (q : list string) (n : node) (es' : entries_t) : Prop :=
  match n with
  | File data => lookup q es' = Some (File data)
  | Dir _ => is_dir q es' = true
  end.

(** The last part of the dump runner, once the guards are passed: build
    the command, announce it, run the child into the destination. *)
Definition run_tail (e : env) (root_dir : Path) (extensions : list string)
    (request_all : Z) (largefile_support recursive : bool)
    (exiftool_cmd : string) (resolved_output : list string)
  : MetadataDump.action unit :=
  MetadataDump.and_then
    (lift (build_exiftool_command root_dir extensions request_all
             largefile_support recursive exiftool_cmd))
    (fun cmd =>
       MetadataDump.and_then
         (print "Running ExifTool... this can take a while on large trees.")
         (fun _ =>
            MetadataDump.and_then (print ("Command: " +:+ join " " cmd))
              (fun _ =>
                 MetadataDump.and_then (run_child e cmd resolved_output)
                   (fun _ =>
                      print ("Done. Metadata written to: "
                             +:+ abs_str resolved_output))))).

(** The world with another file system. *)
Definition with_fs (w : world) (fs' : entries_t) : world :=
  mkWorld fs' (spawned w) (console w).

(** A step leaves everything but [dest] as it was: every other regular
    file keeps its content and every directory stays a directory. *)
Definition untouched (dest : list string) (es es' : entries_t) : Prop :=
  forall q n, q <> dest -> lookup q es = Some n -> kept q n es'.

(** A row of a diff seen from the other side: old and new exchanged. *)
Definition mirror (r : MergedRow) : MergedRow :=
  mkMerged (MTag r) (NonNullCount_new r) (UniqueValues_new r)
    (NonNullCount_old r) (UniqueValues_old r).

(** The mismatching rows of the outer join, in the order of the keys. *)
Definition diff_rows (new existing : table SummaryRow) : list MergedRow :=
  filter mismatch (map (outer_row new existing) (join_keys new existing)).

(** A flat record: no value of it is a dict. *)
Definition flat (d : dict) : Prop :=
  Forall (fun kv => is_dict (snd kv) = false) d.

End Spec.

(** * Properties *)

Import MetadataDump JsonSummary Spec.

(** ** The command builder *)

Section CommandBuilder.

Lemma normalize_loop (extensions acc : list string) :
  fold_left normalize_step extensions acc = acc ++ normalized extensions.
Proof.
  revert acc. induction extensions as [|ext exts IH]; intros acc; simpl.
  - by rewrite app_nil_r.
  - rewrite IH. unfold normalize_step, normalized, normalize_one. simpl.
    destruct (falsy _); simpl; [done|]. by rewrite <- app_assoc.
Qed.

Lemma normalize_extensions_closed (extensions : list string) :
  normalize_extensions extensions =
    match normalized extensions with
    | [] => Raise no_extension
    | exts => Ok exts
    end.
Proof.
  unfold normalize_extensions. rewrite normalize_loop. simpl.
  by destruct (normalized extensions).
Qed.

Lemma extend_loop (exts cmd : list string) :
  fold_left extend_ext exts cmd = cmd ++ flat_map (fun ext => ["-ext"; ext]) exts.
Proof.
  revert cmd. induction exts as [|ext exts IH]; intros cmd; simpl.
  - by rewrite app_nil_r.
  - rewrite IH. unfold extend_ext. by rewrite <- app_assoc.
Qed.

(** C3: when the extensions normalize to a non-empty list, the built
    command is exactly the executable, the completeness-level option, the
    large-file option if asked for, the grouped-tag and CSV options, the
    recursion option if asked for, one [-ext] pair per normalized
    extension in input order with duplicates kept, and the root path
    last. *)
Theorem build_exiftool_command_layout (root_dir : Path)
    (extensions exts : list string) (request_all : Z)
    (largefile_support recursive : bool) (exiftool_cmd : string) :
  normalize_extensions extensions = Ok exts ->
  exts = normalized extensions
  /\ build_exiftool_command root_dir extensions request_all
       largefile_support recursive exiftool_cmd
     = Ok (command_layout root_dir exts request_all largefile_support
             recursive exiftool_cmd)
  /\ last (command_layout root_dir exts request_all largefile_support
             recursive exiftool_cmd) = Some (path_str root_dir).
Proof.
  intros Hnorm. split; [|split].
  - rewrite normalize_extensions_closed in Hnorm.
    destruct (normalized extensions); congruence.
  - unfold build_exiftool_command. rewrite Hnorm. simpl.
    rewrite extend_loop. unfold command_layout. f_equal.
    destruct largefile_support, recursive; simpl;
      by rewrite <- ?app_assoc.
  - unfold command_layout. rewrite !app_assoc. apply last_snoc.
Qed.

Lemma build_exiftool_command_layout_witness :
  build_exiftool_command (mkPath false ["evidence"]) ["pdf"; ".JPG"; " pdf "]
    3 true false "exiftool"
  = Ok ["exiftool"; "-api"; "RequestAll=3"; "-api"; "largefilesupport=1";
        "-G1"; "-csv"; "-ext"; "pdf"; "-ext"; "jpg"; "-ext"; "pdf";
        "evidence"].
Proof.
  exact (proj1 (proj2 (build_exiftool_command_layout
                         (mkPath false ["evidence"]) ["pdf"; ".JPG"; " pdf "]
                         ["pdf"; "jpg"; "pdf"] 3 true false "exiftool"
                         eq_refl))).
Defined.

End CommandBuilder.

(** ** Extension normalization *)

Section Extensions.

Lemma normalize_one_blank (ext : string) :
  strip ext = "" \/ strip ext = "." -> normalize_one ext = None.
Proof. unfold normalize_one. by intros [-> | ->]. Qed.

Lemma normalized_blank (extensions : list string) :
  Forall (fun ext => strip ext = "" \/ strip ext = ".") extensions ->
  normalized extensions = [].
Proof.
  unfold normalized. induction 1 as [|ext exts Hext _ IH]; simpl; [done|].
  by rewrite (normalize_one_blank ext Hext).
Qed.

(** What the loop of [normalize_extensions] computes: a list whose every
    element is, once the surrounding blanks are stripped, empty or a single
    dot is refused with the configuration error, and the error is raised
    exactly when no element is kept. *)
Lemma normalize_extensions_rejects_blank (extensions : list string) :
  (Forall (fun ext => strip ext = "" \/ strip ext = ".") extensions ->
   forall root_dir request_all largefile_support recursive exiftool_cmd,
     build_exiftool_command root_dir extensions request_all
       largefile_support recursive exiftool_cmd = Raise no_extension)
  /\ normalize_extensions extensions =
       match normalized extensions with
       | [] => Raise no_extension
       | exts => Ok exts
       end
  /\ (normalize_extensions extensions = Raise no_extension
      <-> normalized extensions = []).
Proof.
  split; [|split].
  - intros Hblank *. unfold build_exiftool_command.
    rewrite normalize_extensions_closed, (normalized_blank _ Hblank). done.
  - apply normalize_extensions_closed.
  - rewrite normalize_extensions_closed.
    destruct (normalized extensions); split; congruence.
Qed.

Lemma normalize_extensions_rejects_blank_witness :
  build_exiftool_command (mkPath true ["data"]) ["  "; " . "; ""; "."] 3
    true true "exiftool" = Raise no_extension.
Proof.
  apply (proj1 (normalize_extensions_rejects_blank ["  "; " . "; ""; "."])).
  repeat (constructor; [vm_compute; auto|]). constructor.
Defined.

(** C8: the extension [..] is made of dots only, and yet it is not
    refused: one leading dot is removed, not every one, so that
    [normalize_extensions] returns [.], a string with a leading dot,
    where its docstring promises strings without leading dots, and the
    builder passes [-ext .] to ExifTool.  In the same way [..PDF] comes
    out as [.pdf]. *)
Theorem double_dot_accepted :
  blank_or_dots ".." = true
  /\ normalize_extensions [".."] = Ok ["."]
  /\ startswith_dot "." = true
  /\ normalize_extensions ["..PDF"] = Ok [".pdf"]
  /\ build_exiftool_command (mkPath true ["data"]) [".."] 3 true true
       "exiftool"
     = Ok ["exiftool"; "-api"; "RequestAll=3"; "-api"; "largefilesupport=1";
           "-G1"; "-csv"; "-r"; "-ext"; "."; "/data"].
Proof. repeat split; reflexivity. Qed.

End Extensions.

(** ** The dump runner *)

Section DumpRunner.

Lemma put_same (c : string) (n : node) (es : entries_t) :
  assoc c es = Some n -> put c n es = es.
Proof.
  induction es as [|[k m] es IH]; simpl; [done|].
  destruct (String.eqb k c); intros H.
  - by inversion H.
  - by rewrite IH.
Qed.

Lemma assoc_put (c : string) (n : node) (es : entries_t) :
  assoc c (put c n es) = Some n.
Proof.
  induction es as [|[k m] es IH]; simpl.
  - by rewrite String.eqb_refl.
  - destruct (String.eqb k c) eqn:E; simpl; by rewrite E.
Qed.

Lemma world_eta (w : world) : mkWorld (fs w) (spawned w) (console w) = w.
Proof. by destruct w. Qed.

(** Whatever exists lies in a directory. *)
Lemma lookup_parent (p : list string) (n : node) (m : node) :
  lookup_node p n = Some m ->
  match n with Dir _ => True | File _ => p <> [] end ->
  exists d, lookup_node (parent p) n = Some (Dir d).
Proof.
  revert n. induction p as [|c p IH]; intros n Hlook Hn.
  - destruct n; [done | by eexists].
  - destruct n as [|es]; [done|]. simpl in Hlook.
    destruct (assoc c es) as [n'|] eqn:Hc; [|done].
    destruct p as [|c' p'].
    + simpl. by eexists.
    + destruct (IH n' Hlook) as [d Hd].
      { destruct n'; [|done]. done. }
      exists d. change (parent (c :: c' :: p')) with (c :: parent (c' :: p')).
      simpl. by rewrite Hc.
Qed.

(** Creating directories that are there changes nothing. *)
Lemma mkdir_parents_existing (at_path : string) (p : list string)
    (es d : entries_t) :
  lookup p es = Some (Dir d) -> mkdir_parents at_path p es = Ok es.
Proof.
  unfold lookup. revert es. induction p as [|c p IH]; intros es; simpl; [done|].
  destruct (assoc c es) as [[data|es']|] eqn:Hc; [|intros H|done].
  - by destruct p.
  - rewrite (IH es' H). simpl. by rewrite (put_same _ _ _ Hc).
Qed.

Lemma fresh_dirs_prefix (q p : list string) :
  q `prefix_of` p -> is_dir q (fresh_dirs p) = true.
Proof.
  unfold is_dir, lookup. revert p.
  induction q as [|c q IH]; intros p [k Hk]; [done|].
  destruct p as [|c' p]; simplify_eq/=.
  rewrite String.eqb_refl. apply IH. by exists k.
Qed.

(** After [mkdir_parents] the path and all its ancestors are
    directories. *)
Lemma mkdir_parents_creates (at_path : string) (p q : list string)
    (es es' : entries_t) :
  mkdir_parents at_path p es = Ok es' ->
  q `prefix_of` p -> is_dir q es' = true.
Proof.
  unfold is_dir, lookup. revert q es es'.
  induction p as [|c p IH]; intros q es es' Hmk [k Hk].
  - by destruct q.
  - destruct q as [|c' q]; [done|]. simplify_eq/=.
    destruct (assoc c' es) as [[data|e1]|] eqn:Hc.
    + by destruct (q ++ k).
    + destruct (mkdir_parents at_path (q ++ k) e1) as [e2|] eqn:Hrec;
        simplify_eq/=.
      rewrite assoc_put. apply (IH q e1 e2 Hrec). by exists k.
    + simplify_eq/=. rewrite assoc_put.
      apply (fresh_dirs_prefix q (q ++ k)). by exists k.
Qed.

(** The directories can be created unless a regular file stands where
    one of them should be. *)
Lemma mkdir_parents_ok (at_path : string) (p : list string) (es : entries_t) :
  (forall q data, q `prefix_of` p -> lookup q es <> Some (File data)) ->
  exists es', mkdir_parents at_path p es = Ok es'.
Proof.
  unfold lookup. revert es. induction p as [|c p IH]; intros es Hfree; simpl.
  - by eexists.
  - destruct (assoc c es) as [[data|e1]|] eqn:Hc.
    + destruct (Hfree [c] data); [by exists p|]. simpl. by rewrite Hc.
    + destruct (IH e1) as [e2 ->]; [|by eexists].
      intros q data [k ->] Hq. apply (Hfree (c :: q) data); [by exists k|].
      simpl. by rewrite Hc.
    + by eexists.
Qed.

Lemma exists_parent_dir (p : list string) (es : entries_t) :
  exists_ p es = true -> exists d, lookup (parent p) es = Some (Dir d).
Proof.
  unfold exists_, lookup. destruct (lookup_node p (Dir es)) eqn:H; [|done].
  intros _. by apply (lookup_parent p (Dir es) n).
Qed.

(** C9: with the root directory there, the executable found, the
    destination present and no [force], the run raises the already-exists
    error and leaves the world as it was: the destination keeps its
    content, nothing is deleted or truncated, and no child process runs. *)
Theorem run_refuses_existing_output (e : env) (root_dir output_csv : Path)
    (extensions : list string) (request_all : Z)
    (largefile_support recursive : bool) (exiftool_cmd tool : string)
    (w : world) (n : node) :
  is_dir (resolve e root_dir) (fs w) = true ->
  which e exiftool_cmd = Some tool ->
  lookup (resolve e output_csv) (fs w) = Some n ->
  run_exiftool_metadata_dump e root_dir output_csv extensions request_all
    largefile_support recursive exiftool_cmd false w
  = (Raise (conflict (resolve e output_csv)), w).
Proof.
  intros Hroot Hwhich Hout.
  assert (Hex : exists_ (resolve e output_csv) (fs w) = true)
    by (unfold exists_; by rewrite Hout).
  destruct (exists_parent_dir _ _ Hex) as [d Hd].
  unfold run_exiftool_metadata_dump, and_then, get_fs, on_fs,
    clear_destination, raise. simpl.
  rewrite Hroot. simpl.
  rewrite (mkdir_parents_existing _ _ _ _ Hd), Hwhich. simpl.
  rewrite world_eta. unfold and_then, get_fs. simpl. by rewrite Hex.
Qed.

Lemma run_refuses_existing_output_witness :
  let w := mkWorld [("data", Dir []); ("out", Dir [("m.csv", File "old")])]
             [] [] in
  let e := mkEnv ["data"] (fun _ => Some "/usr/bin/exiftool")
             (fun _ => ("csv", 0)) in
  run_exiftool_metadata_dump e (mkPath true ["data"])
    (mkPath true ["out"; "m.csv"]) DEFAULT_EXTENSIONS 3 true true "exiftool"
    false w
  = (Raise (conflict ["out"; "m.csv"]), w).
Proof.
  intros w e.
  exact (run_refuses_existing_output e (mkPath true ["data"])
           (mkPath true ["out"; "m.csv"]) DEFAULT_EXTENSIONS 3 true true
           "exiftool" "/usr/bin/exiftool" w (File "old")
           eq_refl eq_refl eq_refl).
Defined.

(** C10, as the code has it: the parent directories of the destination
    are created first, then the executable is looked up, then the
    destination is tested.  When the root directory is there and the
    directories can be created, a missing executable raises the
    tool-missing error whether or not the destination exists and whatever
    [force] says; with the executable found, an existing destination
    without [force] raises the conflict; and after either failure every
    ancestor directory of the destination exists. *)
Theorem run_checks_tool_before_output (e : env) (root_dir output_csv : Path)
    (extensions : list string) (request_all : Z)
    (largefile_support recursive : bool) (exiftool_cmd : string)
    (force : bool) (w : world) (fs' : entries_t) :
  is_dir (resolve e root_dir) (fs w) = true ->
  mkdir_parents (abs_str (parent (resolve e output_csv)))
    (parent (resolve e output_csv)) (fs w) = Ok fs' ->
  let w' := mkWorld fs' (spawned w) (console w) in
  let run force :=
    run_exiftool_metadata_dump e root_dir output_csv extensions request_all
      largefile_support recursive exiftool_cmd force w in
  (which e exiftool_cmd = None ->
   run force = (Raise (tool_missing exiftool_cmd), w'))
  /\ (which e exiftool_cmd <> None ->
      exists_ (resolve e output_csv) fs' = true ->
      run false = (Raise (conflict (resolve e output_csv)), w'))
  /\ (forall q, q `prefix_of` parent (resolve e output_csv) ->
      is_dir q (fs w') = true).
Proof.
  intros Hroot Hmk w' run. subst run.
  unfold run_exiftool_metadata_dump, and_then, get_fs, on_fs,
    clear_destination, raise. cbv beta iota. rewrite Hroot. cbn [negb].
  rewrite Hmk. cbn [fs spawned console].
  split; [|split].
  - by intros ->.
  - intros Hwhich Hex. destruct (which e exiftool_cmd); [|done].
    unfold and_then, get_fs. simpl. by rewrite Hex.
  - intros q Hq. by apply (mkdir_parents_creates _ _ _ _ _ Hmk).
Qed.

Lemma run_checks_tool_before_output_witness :
  let w := mkWorld [("data", Dir []); ("out", Dir [("m.csv", File "old")])]
             [] [] in
  let e := mkEnv [] (fun _ => None) (fun _ => ("csv", 0)) in
  run_exiftool_metadata_dump e (mkPath true ["data"])
    (mkPath true ["out"; "m.csv"]) DEFAULT_EXTENSIONS 3 true true "exiftool"
    false w
  = (Raise (tool_missing "exiftool"), w).
Proof.
  intros w e.
  exact (proj1 (run_checks_tool_before_output e (mkPath true ["data"])
                  (mkPath true ["out"; "m.csv"]) DEFAULT_EXTENSIONS 3 true
                  true "exiftool" false w (fs w) eq_refl eq_refl) eq_refl).
Defined.

(** C10 as stated fails where a regular file stands in the way of the
    destination's directory: the root is there and the executable is
    missing, yet the run stops at the directory creation. *)
Lemma run_blocked_parent :
  let w := mkWorld [("data", Dir []); ("f", File "x")] [] [] in
  let e := mkEnv [] (fun _ => None) (fun _ => ("csv", 0)) in
  is_dir (resolve e (mkPath true ["data"])) (fs w) = true
  /\ which e "exiftool" = None
  /\ run_exiftool_metadata_dump e (mkPath true ["data"])
       (mkPath true ["f"; "m.csv"]) DEFAULT_EXTENSIONS 3 true true "exiftool"
       false w
     = (Raise (FileExistsError "[Errno 17] File exists: '/f'"), w)
  /\ is_dir ["f"] (fs w) = false.
Proof. by repeat split. Qed.

End DumpRunner.

(** ** String order and sorting *)

Section StringOrder.

Lemma ascii_compare_refl (a : ascii) : Ascii.compare a a = Eq.
Proof. apply N.compare_refl. Qed.

Lemma ascii_compare_lt_trans (a b c : ascii) :
  Ascii.compare a b = Lt -> Ascii.compare b c = Lt -> Ascii.compare a c = Lt.
Proof.
  unfold Ascii.compare. rewrite !N.compare_lt_iff. apply N.lt_trans.
Qed.

Lemma str_compare_refl (a : string) : String.compare a a = Eq.
Proof. induction a as [|c a IH]; simpl; [done|]. by rewrite ascii_compare_refl. Qed.

Lemma str_lt_trans (a b c : string) : str_lt a b -> str_lt b c -> str_lt a c.
Proof.
  unfold str_lt. revert b c.
  induction a as [|x a IH]; intros [|y b] [|z c]; simpl; try done.
  destruct (Ascii.compare x y) eqn:Hxy; [|
    |done]; destruct (Ascii.compare y z) eqn:Hyz; try done.
  - apply Ascii.compare_eq_iff in Hxy, Hyz. subst.
    rewrite ascii_compare_refl. apply IH.
  - apply Ascii.compare_eq_iff in Hxy. subst. by rewrite Hyz.
  - apply Ascii.compare_eq_iff in Hyz. subst. by rewrite Hxy.
  - by rewrite (ascii_compare_lt_trans _ _ _ Hxy Hyz).
Qed.

Lemma str_le_lt_or_eq (a b : string) : str_le a b <-> str_lt a b \/ a = b.
Proof.
  unfold str_le, str_lt. split.
  - destruct (String.compare a b) eqn:H; [|by left|done].
    right. by apply String.compare_eq_iff.
  - intros [-> | ->]; [done|]. by rewrite str_compare_refl.
Qed.

Lemma str_lt_irrefl (a : string) : ~ str_lt a a.
Proof. unfold str_lt. by rewrite str_compare_refl. Qed.

#[local] Instance str_le_trans : Transitive str_le.
Proof.
  intros a b c. rewrite !str_le_lt_or_eq.
  intros [Hab | ->] [Hbc | ->]; eauto using str_lt_trans.
Qed.

#[local] Instance str_le_total : Total str_le.
Proof.
  intros a b. unfold str_le. rewrite (String.compare_antisym b a).
  destruct (String.compare a b); simpl; [left|left|right]; done.
Qed.

#[local] Instance str_le_antisym : AntiSymm (=) str_le.
Proof.
  intros a b. rewrite !str_le_lt_or_eq. intros [Hab | ->] [Hba | Heq]; try done.
  destruct (str_lt_irrefl a). eauto using str_lt_trans.
Qed.

Lemma sorted_perm (labels : list string) : sorted labels ≡ₚ labels.
Proof. apply merge_sort_Permutation. Qed.

Lemma sorted_ascending (labels : list string) :
  StronglySorted str_le (sorted labels).
Proof. apply (StronglySorted_merge_sort _). Qed.

(** An ascending list without repetition ascends strictly. *)
Lemma ascending_strict (labels : list string) :
  NoDup labels -> StronglySorted str_le labels -> StronglySorted str_lt labels.
Proof.
  induction 1 as [|x l Hx Hl IH]; intros Hs; [constructor|].
  apply StronglySorted_inv in Hs as [Hs Hall]. constructor; [by apply IH|].
  rewrite Forall_forall in *. intros y Hy.
  destruct (proj1 (str_le_lt_or_eq x y) (Hall y Hy)) as [Hlt | ->]; [done|].
  by destruct Hx.
Qed.

Lemma sorted_strict (labels : list string) :
  NoDup labels -> StronglySorted str_lt (sorted labels).
Proof.
  intros Hnd. apply ascending_strict; [|apply sorted_ascending].
  by rewrite sorted_perm.
Qed.

(** Capitals come before small letters, and a prefix before its
    extensions. *)
Example sorted_by_code_point :
  sorted ["a.b"; "B"; "a"; "Z"] = ["B"; "Z"; "a"; "a.b"].
Proof. reflexivity. Qed.

End StringOrder.

(** ** The document loader *)

Section DocumentLoader.

(** C7: a top-level list is returned as it is and a top-level dict is
    wrapped in a one-element list; any other top-level value raises a
    value error whose text names the file and the Python type of the
    parsed value: [NoneType] for null, [bool], [int] or [float] for a
    number, [str] for a string. *)
Theorem load_json_documents_shape (files : json_files) (json_path : string)
    (payload : value) :
  files json_path = Ok payload ->
  _load_json_documents files json_path =
    match payload with
    | VList elems => Ok elems
    | VDict items => Ok [VDict items]
    | VNone => Raise (malformed json_path "NoneType")
    | VBool _ => Raise (malformed json_path "bool")
    | VInt _ => Raise (malformed json_path "int")
    | VFloat _ => Raise (malformed json_path "float")
    | VStr _ => Raise (malformed json_path "str")
    end.
Proof.
  intros Hfile. unfold _load_json_documents. rewrite Hfile.
  by destruct payload.
Qed.

Lemma load_json_documents_shape_witness :
  let files : json_files := fun path =>
    if String.eqb path "null.json" then Ok VNone
    else if String.eqb path "true.json" then Ok (VBool true)
    else if String.eqb path "int.json" then Ok (VInt 7)
    else if String.eqb path "float.json" then Ok (VFloat (FFin 5 2))
    else if String.eqb path "str.json" then Ok (VStr "exif")
    else if String.eqb path "list.json" then Ok (VList [VInt 1; VNone])
    else Ok (VDict [("k", VStr "v")]) in
  _load_json_documents files "null.json"
  = Raise (ValueError
             "Expected a dictionary or list of dictionaries in null.json, got NoneType instead.")
  /\ _load_json_documents files "true.json"
     = Raise (ValueError
                "Expected a dictionary or list of dictionaries in true.json, got bool instead.")
  /\ _load_json_documents files "int.json"
     = Raise (ValueError
                "Expected a dictionary or list of dictionaries in int.json, got int instead.")
  /\ _load_json_documents files "float.json"
     = Raise (ValueError
                "Expected a dictionary or list of dictionaries in float.json, got float instead.")
  /\ _load_json_documents files "str.json"
     = Raise (ValueError
                "Expected a dictionary or list of dictionaries in str.json, got str instead.")
  /\ _load_json_documents files "list.json" = Ok [VInt 1; VNone]
  /\ _load_json_documents files "object.json" = Ok [VDict [("k", VStr "v")]].
Proof.
  intros files.
  exact (conj (load_json_documents_shape files "null.json" VNone eq_refl)
        (conj (load_json_documents_shape files "true.json" (VBool true) eq_refl)
        (conj (load_json_documents_shape files "int.json" (VInt 7) eq_refl)
        (conj (load_json_documents_shape files "float.json"
                 (VFloat (FFin 5 2)) eq_refl)
        (conj (load_json_documents_shape files "str.json" (VStr "exif") eq_refl)
        (conj (load_json_documents_shape files "list.json"
                 (VList [VInt 1; VNone]) eq_refl)
              (load_json_documents_shape files "object.json"
                 (VDict [("k", VStr "v")]) eq_refl))))))).
Defined.

(** C7 as stated fails: on a top-level null the loader raises a value
    error, not a type error, and its text says [NoneType], the Python
    type, where JSON names the type null. *)
Lemma null_raises_value_error :
  let outcome := _load_json_documents (fun _ => Ok VNone) "dump.json" in
  let text :=
    "Expected a dictionary or list of dictionaries in dump.json, got NoneType instead." in
  outcome = Raise (ValueError text)
  /\ (forall msg, outcome <> Raise (TypeError msg))
  /\ json_type VNone = "null"
  /\ mentions (json_type VNone) text = false.
Proof.
  split; [reflexivity|]. split; [intros msg; discriminate|].
  split; reflexivity.
Qed.

(** C5: a file holding one object and a file holding the one-element list
    of that object load to the same table. *)
Theorem load_object_as_singleton (files : json_files)
    (object_path list_path : string) (d : dict) :
  files object_path = Ok (VDict d) ->
  files list_path = Ok (VList [VDict d]) ->
  load_metadata_frame files object_path = load_metadata_frame files list_path
  /\ load_metadata_frame files object_path
     = Ok (Some (reindex_columns
                   (sorted (columns (frame_of_dicts [normalise_json_ordered d])))
                   (frame_of_dicts [normalise_json_ordered d]))).
Proof.
  intros Hobj Hlist. unfold load_metadata_frame, _load_json_documents.
  by rewrite Hobj, Hlist.
Qed.

Lemma load_object_as_singleton_witness :
  let files : json_files := fun path =>
    if String.eqb path "object.json" then Ok (VDict [("k", VStr "v")])
    else Ok (VList [VDict [("k", VStr "v")]]) in
  load_metadata_frame files "object.json" = load_metadata_frame files "list.json"
  /\ load_metadata_frame files "object.json"
     = Ok (Some (mkFrame ["k"] [[VStr "v"]])).
Proof.
  intros files.
  exact (load_object_as_singleton files "object.json" "list.json"
           [("k", VStr "v")] eq_refl eq_refl).
Defined.

End DocumentLoader.

(** ** The flattener *)

Section Flattener.

Lemma value_dict_ind (P : value -> Prop)
    (Hleaf : forall v, is_dict v = false -> P v)
    (Hdict : forall items, Forall (fun kv => P (snd kv)) items -> P (VDict items)) :
  forall v, P v.
Proof.
  fix IH 1. intros [| | | | | |items]; try (by apply Hleaf).
  apply Hdict. induction items as [|[k v] items IHitems]; constructor.
  - apply IH.
  - apply IHitems.
Qed.

Lemma str_app_assoc (a b c : string) : (a +:+ b) +:+ c = a +:+ (b +:+ c).
Proof. induction a as [|x a IH]; [done|]. exact (f_equal (String x) IH). Qed.

Lemma join_prefix (a b : string) (p : list string) :
  join "." ((a +:+ "." +:+ b) :: p) = join "." (a :: b :: p).
Proof.
  destruct p as [|c p]; [done|].
  change (join "." ((a +:+ "." +:+ b) :: c :: p))
    with ((a +:+ "." +:+ b) +:+ "." +:+ join "." (c :: p)).
  change (join "." (a :: b :: c :: p))
    with (a +:+ "." +:+ (b +:+ "." +:+ join "." (c :: p))).
  by rewrite !str_app_assoc.
Qed.

Lemma dict_set_keys (k k' : string) (v : value) (d : dict) :
  k' ∈ (dict_set k v d).*1 <-> k' = k \/ k' ∈ d.*1.
Proof.
  induction d as [|[k0 v0] d IH]; simpl.
  - set_solver.
  - destruct (String.eqb k0 k) eqn:E; simpl.
    + apply String.eqb_eq in E. set_solver.
    + set_solver.
Qed.

Lemma dict_update_keys (k : string) (d1 d2 : dict) :
  k ∈ (dict_update d1 d2).*1 <-> k ∈ d1.*1 \/ k ∈ d2.*1.
Proof.
  unfold dict_update. revert d1.
  induction d2 as [|[k2 v2] d2 IH]; intros d1; simpl.
  - set_solver.
  - rewrite IH, dict_set_keys. set_solver.
Qed.

Lemma normalise_json_leaf (v : value) (key_string : string) (acc : dict) :
  is_dict v = false ->
  normalise_json v key_string acc = dict_set key_string v acc
  /\ leaf_paths v = [[]] /\ leaves v = [([], v)].
Proof. by destruct v. Qed.

(** The key of an item below [key_string]: the separator goes between
    the two unless [key_string] is empty. *)
Lemma new_key_step (key_string key : string) :
  (if falsy key_string then removeprefix "." (key_string +:+ "." +:+ key)
   else key_string +:+ "." +:+ key)
  = key_under key_string [key].
Proof. by destruct key_string. Qed.

Lemma normalise_json_cons (key key_string : string) (v : value)
    (rest acc : dict) :
  normalise_json (VDict ((key, v) :: rest)) key_string acc
  = normalise_json (VDict rest) key_string
      (normalise_json v (key_under key_string [key]) acc).
Proof. rewrite <- new_key_step. reflexivity. Qed.

Lemma leaf_paths_cons (key : string) (v : value) (rest : dict) :
  leaf_paths (VDict ((key, v) :: rest))
  = map (cons key) (leaf_paths v) ++ leaf_paths (VDict rest).
Proof. reflexivity. Qed.

Lemma leaves_cons (key : string) (v : value) (rest : dict) :
  leaves (VDict ((key, v) :: rest))
  = map (fun pv => (key :: fst pv, snd pv)) (leaves v) ++ leaves (VDict rest).
Proof. reflexivity. Qed.

(** The key paths of a value are the paths of its leaves. *)
Lemma leaf_paths_leaves (v : value) : leaf_paths v = (leaves v).*1.
Proof.
  induction v as [v Hv | items IHitems] using value_dict_ind.
  - by destruct (normalise_json_leaf v "" [] Hv) as (_ & -> & ->).
  - induction IHitems as [|[key v] rest Hv _ IHrest]; [done|].
    rewrite leaf_paths_cons, leaves_cons, fmap_app, IHrest. cbn [snd] in Hv.
    rewrite Hv. f_equal. change (map ?f ?l) with (f <$> l).
    rewrite <- !list_fmap_compose. by apply list_fmap_ext.
Qed.

Lemma leaves_not_dict (v x : value) (p : list string) :
  (p, x) ∈ leaves v -> is_dict x = false.
Proof.
  revert p. induction v as [v Hv | items IHitems] using value_dict_ind;
    intros p.
  - destruct (normalise_json_leaf v "" [] Hv) as (_ & _ & ->).
    intros Hin. apply list_elem_of_singleton in Hin. by simplify_eq.
  - induction IHitems as [|[key v] rest Hv _ IHrest];
      [by intros Hin; inversion Hin|].
    rewrite leaves_cons, elem_of_app. intros [Hin | Hin]; [|by apply IHrest].
    apply list_elem_of_fmap in Hin as ([p' x'] & Heq & Hin). simplify_eq.
    by apply (Hv p').
Qed.

Lemma leaves_elem (data : dict) (p : list string) (x : value) :
  (p, x) ∈ leaves (VDict data)
  <-> exists key v p', (key, v) ∈ data /\ (p', x) ∈ leaves v /\ p = key :: p'.
Proof.
  induction data as [|[key v] rest IH].
  - simpl. set_solver.
  - rewrite leaves_cons, elem_of_app, IH, list_elem_of_fmap. split.
    + intros [([p' x'] & Heq & Hin) | (key' & v' & p' & Hin & Hp' & ->)].
      * simplify_eq. exists key, v, p'. set_solver.
      * exists key', v', p'. set_solver.
    + intros (key' & v' & p' & Hin & Hp' & ->).
      apply elem_of_cons in Hin as [Heq | Hin].
      * simplify_eq. left. by exists (p', x).
      * right. by exists key', v', p'.
Qed.

Lemma key_paths_elem (data : dict) (p : list string) :
  p ∈ key_paths data
  <-> exists key v p', (key, v) ∈ data /\ p' ∈ leaf_paths v /\ p = key :: p'.
Proof.
  unfold key_paths. induction data as [|[key v] rest IH].
  - simpl. set_solver.
  - rewrite leaf_paths_cons, elem_of_app, IH, list_elem_of_fmap. split.
    + intros [(p' & -> & Hp') | (key' & v' & p' & Hin & Hp' & ->)].
      * exists key, v, p'. set_solver.
      * exists key', v', p'. set_solver.
    + intros (key' & v' & p' & Hin & Hp' & ->).
      apply elem_of_cons in Hin as [Heq | Hin].
      * simplify_eq. left. by exists p'.
      * right. by exists key', v', p'.
Qed.

(** From a key that is not empty the flattening reaches the dot-joined
    path; from the empty key, the name of the path. *)
Lemma key_under_nonempty (key_string : string) (path : list string) :
  key_string <> "" -> key_under key_string path = join "." (key_string :: path).
Proof.
  revert key_string. induction path as [|key path IH]; intros s Hs; [done|].
  rewrite <- join_prefix, <- IH; [|by destruct s].
  unfold key_under. simpl. by destruct s.
Qed.

Lemma key_under_empty (path : list string) :
  key_under "" path = column_name path.
Proof.
  unfold column_name. induction path as [|key path IH]; [done|].
  destruct key as [|c key]; [exact IH|].
  by apply (key_under_nonempty (String c key) path).
Qed.

Lemma column_name_plain (key : string) (path : list string) :
  key <> "" -> column_name (key :: path) = join "." (key :: path).
Proof. by destruct key. Qed.

Lemma column_name_single (key : string) : column_name [key] = key.
Proof. by destruct key. Qed.

(** The flattening of a value is the sequence of writes of its leaves,
    each under the key reached for it, in the order of the document. *)
Lemma normalise_json_writes (v : value) :
  forall (key_string : string) (acc : dict),
    normalise_json v key_string acc
    = dict_update acc (named_leaves key_string v).
Proof.
  induction v as [v Hv | items IHitems] using value_dict_ind;
    intros key_string acc.
  - unfold named_leaves.
    by destruct (normalise_json_leaf v key_string acc Hv) as (-> & _ & ->).
  - revert acc. induction IHitems as [|[key v] rest Hv _ IHrest]; intros acc;
      [done|].
    rewrite normalise_json_cons, IHrest. cbn [snd] in Hv. rewrite Hv.
    unfold named_leaves, dict_update.
    by rewrite leaves_cons, map_app, fold_left_app, map_map.
Qed.



Lemma dict_set_elem (kv : string * value) (k : string) (v : value) (d : dict) :
  kv ∈ dict_set k v d -> kv = (k, v) \/ kv ∈ d.
Proof.
  induction d as [|[k0 v0] d IH]; simpl; [set_solver|].
  destruct (String.eqb k0 k) eqn:E.
  - apply String.eqb_eq in E as ->. set_solver.
  - set_solver.
Qed.

Lemma dict_update_elem (kv : string * value) (d1 d2 : dict) :
  kv ∈ dict_update d1 d2 -> kv ∈ d1 \/ kv ∈ d2.
Proof.
  unfold dict_update. revert d1.
  induction d2 as [|[k2 v2] d2 IH]; intros d1; simpl; [by left|].
  intros Hin. apply IH in Hin as [Hin | Hin]; [|set_solver].
  apply dict_set_elem in Hin. set_solver.
Qed.

Lemma filter_leaves (P : string * value -> bool) (data : dict)
    (p : list string) (x : value) :
  (p, x) ∈ leaves (VDict (filter P data)) -> (p, x) ∈ leaves (VDict data).
Proof.
  rewrite !leaves_elem. intros (key & v & p' & Hin & Hp' & ->).
  apply list_elem_of_filter in Hin as [_ Hin]. by exists key, v, p'.
Qed.

(** Every item of a flattened record is a leaf of the record under its
    name. *)
Lemma normalise_json_ordered_elem (data : dict) (k : string) (x : value) :
  (k, x) ∈ normalise_json_ordered data ->
  exists p, (p, x) ∈ leaves (VDict data) /\ k = column_name p.
Proof.
  unfold normalise_json_ordered. rewrite normalise_json_writes.
  intros Hin. apply dict_update_elem in Hin as [Hin | Hin].
  - apply list_elem_of_filter in Hin as [Hx Hin]. simpl in Hx.
    exists [k]. rewrite column_name_single. split; [|done].
    apply leaves_elem. exists k, x, [].
    destruct (normalise_json_leaf x "" []) as (_ & _ & ->);
      [by destruct (is_dict x) | set_solver].
  - apply dict_update_elem in Hin as [Hin | Hin]; [by inversion Hin|].
    apply list_elem_of_fmap in Hin as ([p x'] & Heq & Hin). simplify_eq.
    exists p. rewrite key_under_empty. split; [|done].
    by apply filter_leaves in Hin.
Qed.

(** The keys of a flattened record are the names of its key paths. *)
Lemma normalise_json_ordered_keys (data : dict) (k : string) :
  k ∈ (normalise_json_ordered data).*1
  <-> exists p, p ∈ key_paths data /\ k = column_name p.
Proof.
  split.
  - intros Hk. apply list_elem_of_fmap in Hk as ([k' x] & -> & Hin).
    apply normalise_json_ordered_elem in Hin as (p & Hp & ->).
    exists p. split; [|done]. unfold key_paths. rewrite leaf_paths_leaves.
    by apply (list_elem_of_fmap_2 fst) in Hp.
  - intros (p & Hp & ->). unfold key_paths in Hp.
    rewrite leaf_paths_leaves in Hp.
    apply list_elem_of_fmap in Hp as ([p' x] & -> & Hp). simpl.
    apply leaves_elem in Hp as (key & v & q & Hin & Hq & ->).
    unfold normalise_json_ordered.
    rewrite normalise_json_writes, !dict_update_keys.
    destruct (is_dict v) eqn:Hv.
    + right; right. rewrite <- key_under_empty.
      apply list_elem_of_fmap. exists (key_under "" (key :: q), x).
      split; [done|]. apply list_elem_of_fmap. exists (key :: q, x).
      split; [done|]. apply leaves_elem. exists key, v, q. split; [|done].
      apply list_elem_of_filter. split; [by simpl; rewrite Hv | done].
    + destruct (normalise_json_leaf v "" [] Hv) as (_ & _ & Hl).
      rewrite Hl in Hq. apply list_elem_of_singleton in Hq. simplify_eq.
      left. rewrite column_name_single.
      apply list_elem_of_fmap. exists (key, v). split; [done|].
      apply list_elem_of_filter. split; [by simpl; rewrite Hv | done].
Qed.

Lemma existsb_eqb (k : string) (seen : list string) :
  existsb (String.eqb k) seen = true <-> k ∈ seen.
Proof.
  rewrite existsb_exists. split.
  - intros (x & Hin & Heq). apply String.eqb_eq in Heq as ->.
    by apply list_elem_of_In.
  - intros Hin. exists k. split; [by apply list_elem_of_In|].
    apply String.eqb_refl.
Qed.

Lemma add_label_spec (seen : list string) (k : string) :
  (forall k', k' ∈ add_label seen k <-> k' ∈ seen \/ k' = k)
  /\ (NoDup seen -> NoDup (add_label seen k)).
Proof.
  unfold add_label. destruct (existsb (String.eqb k) seen) eqn:E.
  - apply existsb_eqb in E. set_solver.
  - assert (k ∉ seen) by (rewrite <- existsb_eqb; congruence). split.
    + set_solver.
    + intros Hnd. apply NoDup_app. set_solver by eauto using NoDup_singleton.
Qed.

Lemma add_labels_spec (ks seen : list string) :
  (forall k, k ∈ fold_left add_label ks seen <-> k ∈ seen \/ k ∈ ks)
  /\ (NoDup seen -> NoDup (fold_left add_label ks seen)).
Proof.
  revert seen. induction ks as [|k0 ks IH]; intros seen; simpl.
  - set_solver.
  - destruct (IH (add_label seen k0)) as [Hin Hnd].
    destruct (add_label_spec seen k0) as [Hin0 Hnd0]. split.
    + intros k. rewrite Hin, Hin0. set_solver.
    + auto.
Qed.

Lemma all_keys_from (ds : list dict) (seen : list string) :
  let cols := fold_left (fun seen d => fold_left add_label d.*1 seen) ds seen in
  (forall k, k ∈ cols <-> k ∈ seen \/ exists d, d ∈ ds /\ k ∈ d.*1)
  /\ (NoDup seen -> NoDup cols).
Proof.
  revert seen. induction ds as [|d ds IH]; intros seen; simpl.
  - set_solver.
  - destruct (IH (fold_left add_label d.*1 seen)) as [Hin Hnd].
    destruct (add_labels_spec d.*1 seen) as [Hin0 Hnd0]. split.
    + intros k. rewrite Hin, Hin0. set_solver.
    + auto.
Qed.

Lemma all_keys_elem (ds : list dict) (k : string) :
  k ∈ all_keys ds <-> exists d, d ∈ ds /\ k ∈ d.*1.
Proof.
  unfold all_keys. rewrite (proj1 (all_keys_from ds [])). set_solver.
Qed.

Lemma all_keys_NoDup (ds : list dict) : NoDup (all_keys ds).
Proof. apply (all_keys_from ds []), NoDup_nil_2. Qed.

Lemma index_of_lookup (cols : list string) (j : nat) (c : string) :
  NoDup cols -> cols !! j = Some c -> index_of c cols = Some j.
Proof.
  revert j. induction cols as [|c0 cols IH]; intros j Hnd Hj; [done|].
  apply NoDup_cons in Hnd as [Hc0 Hnd]. simpl. destruct j as [|j]; simpl in Hj.
  - simplify_eq. by rewrite String.eqb_refl.
  - destruct (String.eqb c0 c) eqn:E.
    + apply String.eqb_eq in E as ->. destruct Hc0.
      by eapply list_elem_of_lookup_2.
    + by rewrite (IH j Hnd Hj).
Qed.

(** Every cell of the table is the value of its record under the label,
    or NaN. *)
Lemma frame_of_dicts_cell (ds : list dict) (d : dict) (j : nat) (c : string) :
  columns (frame_of_dicts ds) !! j = Some c ->
  cell (frame_of_dicts ds)
    (map (fun c => default nan (dict_get c d)) (all_keys ds)) c
  = default nan (dict_get c d).
Proof.
  intros Hj. unfold cell. simpl in *.
  rewrite (index_of_lookup _ j c (all_keys_NoDup ds) Hj).
  by rewrite list_lookup_fmap, Hj.
Qed.

Lemma records_normalize (records : list dict) :
  mapM simple_json_normalize (map VDict records)
  = Some (map normalise_json_ordered records).
Proof.
  apply mapM_Some. induction records; constructor; auto.
Qed.




(** C2, the example of the specification: the record [{"a": {"b": 1}}]
    loads to one row with the column [a.b] holding 1. *)
Example load_nested_record :
  load_metadata_frame
    (fun _ => Ok (VList [VDict [("a", VDict [("b", VInt 1)])]])) "dump.json"
  = Ok (Some (mkFrame ["a.b"] [[VInt 1]])).
Proof. reflexivity. Qed.

(** Three records, one of them empty: the columns are the sorted names,
    and the cells no record fills hold NaN. *)
Example load_three_records :
  load_metadata_frame
    (fun _ =>
       Ok (VList
             [VDict [("SourceFile", VStr "a.jpg");
                     ("EXIF", VDict [("Make", VStr "Acme");
                                     ("Model", VStr "Z1")])];
              VDict [];
              VDict [("SourceFile", VStr "b.pdf");
                     ("PDF", VDict [("Producer", VStr "tex")]);
                     ("", VDict [("Note", VStr "n")])]])) "dump.json"
  = Ok (Some (mkFrame
                ["EXIF.Make"; "EXIF.Model"; "Note"; "PDF.Producer"; "SourceFile"]
                [[VStr "Acme"; VStr "Z1"; nan; nan; VStr "a.jpg"];
                 [nan; nan; nan; nan; nan];
                 [nan; nan; VStr "n"; VStr "tex"; VStr "b.pdf"]])).
Proof. reflexivity. Qed.

(** Two leaves of one name: the nested one is written last and stays. *)
Example load_colliding_names :
  load_metadata_frame
    (fun _ => Ok (VList [VDict [("", VDict [("b", VInt 1)]); ("b", VInt 2)]]))
    "dump.json"
  = Ok (Some (mkFrame ["b"] [[VInt 1]])).
Proof. reflexivity. Qed.

End Flattener.

(** ** The summarizer *)

Section Summarizer.

Lemma unique_by_length {A} (eqb : A -> A -> bool) (l seen : list A) :
  (length (unique_by eqb seen l) <= length seen + length l)%nat.
Proof.
  revert seen. induction l as [|x l IH]; intros seen; simpl; [lia|].
  destruct (existsb (eqb x) seen).
  - specialize (IH seen). lia.
  - specialize (IH (seen ++ [x])). rewrite length_app in IH. simpl in IH. lia.
Qed.

(** The distinct present values are no more than the present values. *)
Lemma nunique_le (s : list value) (u : Z) :
  nunique s = Ok u -> 0 <= u <= notna_sum s.
Proof.
  unfold nunique, notna_sum. destruct (List.find _ s); [done|].
  intros [= <-]. pose proof (unique_by_length py_eqb (filter notna s) []).
  simpl in *. lia.
Qed.

Lemma summary_loop_spec (f : DataFrame) (cols : list string)
    (acc summary_rows : list SummaryRow) :
  summary_loop f cols acc = Ok summary_rows ->
  Forall summary_invariant acc ->
  Forall summary_invariant summary_rows
  /\ length summary_rows = (length acc + length cols)%nat.
Proof.
  revert acc. induction cols as [|column cols IH]; intros acc; simpl.
  - intros [= <-] Hacc. split; [done | lia].
  - destruct (nunique (series f column)) as [u|] eqn:Hu; [|done]. simpl.
    intros Hloop Hacc. apply IH in Hloop as [Hinv Hlen].
    + split; [done|]. rewrite length_app in Hlen. simpl in Hlen. lia.
    + apply Forall_app. split; [done|]. constructor; [|done].
      exists (notna_sum (series f column)), u. auto using nunique_le.
Qed.

Lemma range_index_rows {R} (rs : list R) : (range_index rs).*2 = rs.
Proof. unfold range_index. apply snd_zip. by rewrite length_seq. Qed.

Lemma range_index_labels {R} (rs : list R) :
  (range_index rs).*1 = seq 0 (length rs).
Proof. unfold range_index. apply fst_zip. by rewrite length_seq. Qed.

Lemma range_index_length {R} (rs : list R) :
  length (range_index rs) = length rs.
Proof. by rewrite <- (length_fmap snd (range_index rs)), range_index_rows. Qed.

Lemma sort_values_perm {R} (key : R -> string) (t : table R) :
  sort_values key t ≡ₚ t.
Proof. apply merge_sort_Permutation. Qed.

(** C1: every row of a summary holds two integers with
    [0 <= UniqueValues <= NonNullCount], and the summary has one row per
    column. *)
Theorem summarize_columns_invariant (frame : DataFrame)
    (summary : table SummaryRow) :
  summarize_columns frame = Ok summary ->
  Forall (fun ir => summary_invariant (snd ir)) summary
  /\ length summary = length (columns frame).
Proof.
  unfold summarize_columns.
  destruct (summary_loop frame (columns frame) []) as [rows|] eqn:Hloop;
    [|done].
  apply summary_loop_spec in Hloop as [Hinv Hlen]; [|done]. simpl.
  destruct rows as [|r rows]; [done|]. intros [= <-].
  set (rs := r :: rows) in *.
  assert (Hrows : (reset_index (sort_values Tag (range_index rs))).*2 ≡ₚ rs).
  { unfold reset_index. rewrite range_index_rows.
    change (map snd ?t) with (t.*2).
    by rewrite sort_values_perm, range_index_rows. }
  split.
  - assert (Hall : Forall summary_invariant
                     (reset_index (sort_values Tag (range_index rs))).*2)
      by (by rewrite Hrows).
    rewrite Forall_forall in Hall. apply Forall_forall. intros ir Hir.
    apply Hall, list_elem_of_fmap. by exists ir.
  - change (length rs = length (columns frame)) in Hlen.
    rewrite <- Hlen, <- (length_fmap snd (reset_index _)). by rewrite Hrows.
Qed.

Lemma summarize_columns_invariant_witness :
  let frame := mkFrame ["b"; "a"]
                 [[VNone; VInt 1]; [VStr "x"; VBool true]; [nan; VInt 2]] in
  Forall (fun ir => summary_invariant (snd ir))
    [(0%nat, mkSummary "a" (Some 3) (Some 2));
     (1%nat, mkSummary "b" (Some 1) (Some 1))].
Proof.
  intros frame.
  exact (proj1 (summarize_columns_invariant frame _ eq_refl)).
Defined.

Lemma find_none_all {A} (f : A -> bool) (l : list A) :
  (forall x, In x l -> f x = false) -> List.find f l = None.
Proof.
  induction l as [|x l IH]; intros H; simpl; [done|].
  rewrite (H x (or_introl eq_refl)). apply IH. intros y Hy. apply H. by right.
Qed.

(** A table with at least one column and hashable cells has a summary. *)
Lemma summarize_columns_total (frame : DataFrame) :
  columns frame <> [] ->
  Forall (Forall (fun v => hashable v = true)) (rows frame) ->
  exists summary, summarize_columns frame = Ok summary.
Proof.
  intros Hcols Hcells.
  assert (Hseries : forall c, List.find (fun v => negb (hashable v))
                                (series frame c) = None).
  { intros c. apply find_none_all. intros v Hv.
    apply in_map_iff in Hv as (row & <- & Hrow).
    rewrite Forall_forall in Hcells.
    specialize (Hcells row (proj2 (list_elem_of_In _ _) Hrow)).
    unfold cell. destruct (index_of c (columns frame)) as [i|]; [|done].
    destruct (row !! i) as [v|] eqn:Hv; [|done]. simpl.
    rewrite Forall_forall in Hcells.
    by rewrite (Hcells v (list_elem_of_lookup_2 _ _ _ Hv)). }
  assert (Hloop : forall cols acc,
             exists rows, summary_loop frame cols acc = Ok rows
                          /\ (length acc + length cols <= length rows)%nat).
  { induction cols as [|c cols IH]; intros acc; simpl.
    - exists acc. split; [done | lia].
    - unfold nunique. rewrite Hseries. simpl.
      destruct (IH (acc ++ [mkSummary c (Some (notna_sum (series frame c)))
          (Some (Z.of_nat (length (unique_by py_eqb []
                                     (filter notna (series frame c))))))]))
        as (rows & -> & Hlen).
      exists rows. split; [done|]. rewrite length_app in Hlen. simpl in Hlen. lia. }
  unfold summarize_columns.
  destruct (Hloop (columns frame) []) as (rows & -> & Hlen). simpl.
  destruct rows as [|r rows]; [|by eexists].
  destruct (columns frame); [done | simpl in Hlen; lia].
Qed.

End Summarizer.

(** ** The differ *)

Section Differ.

Lemma filter_rows {R} (P : R -> bool) (t : table R) :
  (filter (fun ir => P (snd ir)) t).*2 = filter P t.*2.
Proof.
  induction t as [|[i r] t IH]; [done|]. csimpl.
  rewrite !filter_cons. csimpl. destruct (P r); csimpl; by rewrite IH.
Qed.

Lemma has_tag_absent (k : string) (ls : list SummaryRow) :
  k ∉ map Tag ls ->
  filter (has_tag k) ls = [] /\ List.find (has_tag k) ls = None.
Proof.
  induction ls as [|r ls IH]; [done|]. simpl. intros Hk.
  apply not_elem_of_cons in Hk as [Hr Hk]. rewrite filter_cons.
  destruct (has_tag k r) eqn:E; unfold has_tag in E.
  - apply String.eqb_eq in E. congruence.
  - simpl. by apply IH.
Qed.

Lemma has_tag_present (k : string) (ls : list SummaryRow) :
  NoDup (map Tag ls) -> k ∈ map Tag ls ->
  exists r, r ∈ ls /\ Tag r = k
            /\ filter (has_tag k) ls = [r] /\ List.find (has_tag k) ls = Some r.
Proof.
  induction ls as [|r ls IH]; simpl; intros Hnd Hk; [by inversion Hk|].
  apply NoDup_cons in Hnd as [Hr Hnd]. rewrite filter_cons.
  destruct (has_tag k r) eqn:E; unfold has_tag in E; simpl.
  - apply String.eqb_eq in E. subst k.
    destruct (has_tag_absent _ _ Hr) as [-> _]. exists r. set_solver.
  - apply String.eqb_neq in E.
    destruct IH as (r' & Hin & Htag & -> & ->); [done | set_solver|].
    exists r'. set_solver.
Qed.

Lemma tags_rows (summary : table SummaryRow) :
  tags summary = map Tag summary.*2.
Proof. unfold tags. by rewrite map_map. Qed.

(** With distinct tags on each side, the rows joined under a key present
    on some side are the single outer-join row of that key. *)
Lemma join_key_row (new existing : table SummaryRow) (k : string) :
  NoDup (tags new) -> NoDup (tags existing) ->
  k ∈ tags new \/ k ∈ tags existing ->
  join_key k (filter (has_tag k) existing.*2) (filter (has_tag k) new.*2)
  = [outer_row new existing k].
Proof.
  rewrite !tags_rows. intros Hn He Hk. unfold outer_row, stats_of.
  change (map snd existing) with (existing.*2).
  change (map snd new) with (new.*2).
  destruct (decide (k ∈ map Tag existing.*2)) as [Hke | Hke];
    destruct (decide (k ∈ map Tag new.*2)) as [Hkn | Hkn].
  - destruct (has_tag_present _ _ He Hke) as (l & _ & _ & -> & ->).
    by destruct (has_tag_present _ _ Hn Hkn) as (r & _ & _ & -> & ->).
  - destruct (has_tag_present _ _ He Hke) as (l & _ & _ & -> & ->).
    by destruct (has_tag_absent _ _ Hkn) as [-> ->].
  - destruct (has_tag_absent _ _ Hke) as [-> ->].
    by destruct (has_tag_present _ _ Hn Hkn) as (r & _ & _ & -> & ->).
  - tauto.
Qed.

Lemma flat_map_singletons {A B} (J : A -> list B) (g : A -> B) (l : list A) :
  (forall k, k ∈ l -> J k = [g k]) -> flat_map J l = map g l.
Proof.
  induction l as [|k l IH]; intros H; simpl; [done|].
  rewrite (H k), IH; set_solver.
Qed.


Lemma join_keys_spec (new existing : table SummaryRow) :
  (forall k, k ∈ join_keys new existing <-> k ∈ tags new \/ k ∈ tags existing)
  /\ NoDup (join_keys new existing).
Proof.
  unfold join_keys. rewrite !tags_rows.
  destruct (add_labels_spec (map Tag existing.*2 ++ map Tag new.*2) [])
    as [Hin Hnd]. split.
  - intros k. rewrite sorted_perm, Hin. set_solver.
  - rewrite sorted_perm. apply Hnd. constructor.
Qed.

Lemma merge_outer_rows (new existing : table SummaryRow) :
  NoDup (tags new) -> NoDup (tags existing) ->
  (merge_outer existing new).*2
  = map (outer_row new existing) (join_keys new existing).
Proof.
  intros Hn He. unfold merge_outer. rewrite range_index_rows.
  apply flat_map_singletons. intros k Hk.
  apply (join_key_row new existing k Hn He).
  by apply (join_keys_spec new existing).
Qed.

(** The rows of the diff are the mismatching rows of the outer join. *)
Lemma compare_summaries_rows (new existing : table SummaryRow) :
  NoDup (tags new) -> NoDup (tags existing) ->
  (compare_summaries new existing).*2
  ≡ₚ filter mismatch (map (outer_row new existing) (join_keys new existing)).
Proof.
  intros Hn He. unfold compare_summaries, reset_index.
  rewrite range_index_rows. change (map snd ?t) with (t.*2).
  by rewrite sort_values_perm, filter_rows, merge_outer_rows.
Qed.

Lemma sort_values_sorted {R} (key : R -> string) (t : table R) :
  StronglySorted str_le (map (fun ir => key (snd ir)) (sort_values key t)).
Proof.
  set (le := fun a b : nat * R => str_le (key (snd a)) (key (snd b))).
  assert (Transitive le) by (intros a b c; apply str_le_trans).
  assert (Total le) by (intros a b; apply str_le_total).
  apply (StronglySorted_fmap _ le); [done|].
  apply (StronglySorted_merge_sort le).
Qed.

Lemma ne_differ (a b : option Z) : ne a b = true <-> differ a b.
Proof.
  destruct a as [x|], b as [y|]; simpl; try done.
  rewrite negb_true_iff. apply Z.eqb_neq.
Qed.

Lemma mismatch_differ (row : MergedRow) :
  mismatch row
  <-> differ (NonNullCount_old row) (NonNullCount_new row)
      \/ differ (UniqueValues_old row) (UniqueValues_new row).
Proof.
  unfold mismatch. rewrite Is_true_true, orb_true_iff.
  by rewrite !ne_differ.
Qed.

Lemma stats_of_absent (summary : table SummaryRow) (tag : string) :
  tag ∉ tags summary -> stats_of summary tag = (None, None).
Proof.
  rewrite tags_rows. intros Htag. unfold stats_of.
  change (map snd summary) with (summary.*2).
  by destruct (has_tag_absent _ _ Htag) as [_ ->].
Qed.

Lemma tags_of_filtered (new existing : table SummaryRow) (keys : list string) :
  map MTag (filter mismatch (map (outer_row new existing) keys))
  = filter (fun k => mismatch (outer_row new existing k)) keys.
Proof.
  induction keys as [|k keys IH]; [done|]. csimpl.
  rewrite !filter_cons. destruct (mismatch (outer_row new existing k));
    csimpl; by rewrite IH.
Qed.

(** C6: with distinct tags on each side, the diff holds exactly the rows
    of the outer join on [Tag] whose non-null counts differ or whose
    unique-value counts differ, an empty cell differing from everything;
    a tag present on one side only is always among them; the rows ascend
    strictly by tag and the index runs from zero. *)
Theorem compare_summaries_outer_join (new existing : table SummaryRow) :
  NoDup (tags new) -> NoDup (tags existing) ->
  let diff := compare_summaries new existing in
  diff.*1 = List.seq 0 (length diff)
  /\ StronglySorted str_lt (map MTag diff.*2)
  /\ (forall row,
        row ∈ diff.*2
        <-> exists tag,
              (tag ∈ tags new \/ tag ∈ tags existing)
              /\ row = outer_row new existing tag
              /\ (differ (NonNullCount_old row) (NonNullCount_new row)
                  \/ differ (UniqueValues_old row) (UniqueValues_new row)))
  /\ (forall tag,
        (tag ∈ tags new /\ tag ∉ tags existing)
        \/ ((tag ∉ tags new) /\ tag ∈ tags existing) ->
        outer_row new existing tag ∈ diff.*2).
Proof.
  intros Hn He diff.
  pose proof (compare_summaries_rows new existing Hn He) as Hrows.
  fold diff in Hrows.
  destruct (join_keys_spec new existing) as [Hkeys Hnd].
  assert (Hmem : forall row,
             row ∈ diff.*2
             <-> exists tag,
                   (tag ∈ tags new \/ tag ∈ tags existing)
                   /\ row = outer_row new existing tag
                   /\ (differ (NonNullCount_old row) (NonNullCount_new row)
                       \/ differ (UniqueValues_old row) (UniqueValues_new row))).
  { intros row. rewrite Hrows, list_elem_of_filter, list_elem_of_fmap.
    rewrite mismatch_differ. split.
    - intros [Hd (tag & -> & Htag)]. exists tag. by rewrite <- Hkeys.
    - intros (tag & Htag & -> & Hd). split; [done|]. exists tag.
      by rewrite Hkeys. }
  split; [|split; [|split; [done|]]].
  - unfold diff, compare_summaries, reset_index.
    by rewrite range_index_labels, range_index_length.
  - apply ascending_strict.
    + change (map MTag diff.*2) with (MTag <$> diff.*2).
      rewrite Hrows. change (MTag <$> ?l) with (map MTag l).
      rewrite tags_of_filtered. by apply NoDup_filter.
    + unfold diff, compare_summaries, reset_index.
      rewrite range_index_rows, map_map. apply sort_values_sorted.
  - intros tag Hside. apply Hmem. exists tag.
    split; [tauto|]. split; [done|]. left. unfold outer_row. simpl.
    destruct Hside as [[_ Habs] | [Habs _]];
      rewrite (stats_of_absent _ _ Habs); simpl; [done|].
    by destruct (stats_of existing tag).1.
Qed.

Lemma compare_summaries_outer_join_witness :
  let new := [(0%nat, mkSummary "x" (Some 5) (Some 3));
              (1%nat, mkSummary "a" (Some 2) (Some 1))] in
  let existing := [(0%nat, mkSummary "x" (Some 5) (Some 4));
                   (1%nat, mkSummary "z" (Some 1) (Some 1))] in
  (compare_summaries new existing).*1 = [0; 1; 2]%nat
  /\ StronglySorted str_lt (map MTag (compare_summaries new existing).*2).
Proof.
  intros new existing.
  assert (Hn : NoDup (tags new))
    by exact (bool_decide_unpack (NoDup (tags new)) I).
  assert (He : NoDup (tags existing))
    by exact (bool_decide_unpack (NoDup (tags existing)) I).
  destruct (compare_summaries_outer_join new existing Hn He)
    as (Hindex & Hsorted & _).
  split; [exact Hindex | exact Hsorted].
Defined.

(** C6, the example of the specification: one differing row for [x]. *)
Example compare_one_difference :
  compare_summaries [(0%nat, mkSummary "x" (Some 5) (Some 3))]
                    [(0%nat, mkSummary "x" (Some 5) (Some 4))]
  = [(0%nat, mkMerged "x" (Some 5) (Some 4) (Some 5) (Some 3))].
Proof. reflexivity. Qed.

(** C4: a summary with distinct tags and no empty cell, compared with
    itself, gives the empty diff. *)
Theorem compare_summaries_self (summary : table SummaryRow) :
  NoDup (tags summary) ->
  Forall (fun ir => is_Some (NonNullCount (snd ir))
                    /\ is_Some (UniqueValues (snd ir))) summary ->
  compare_summaries summary summary = [].
Proof.
  intros Hnd Hfull.
  pose proof (compare_summaries_rows summary summary Hnd Hnd) as Hrows.
  destruct (join_keys_spec summary summary) as [Hkeys _].
  assert (Hnone : filter mismatch
                    (map (outer_row summary summary)
                       (join_keys summary summary)) = []).
  { destruct (filter mismatch _) as [|row rest] eqn:Hf; [done|].
    assert (Hrow : row ∈ filter mismatch
                     (map (outer_row summary summary)
                        (join_keys summary summary)))
      by (rewrite Hf; left).
    apply list_elem_of_filter in Hrow as [Hm Hin].
    apply list_elem_of_fmap in Hin as (tag & -> & Htag).
    apply Hkeys in Htag. assert (Hin : tag ∈ tags summary) by tauto.
    rewrite tags_rows in Hin, Hnd.
    destruct (has_tag_present _ _ Hnd Hin) as (r & Hr & _ & _ & Hfind).
    apply list_elem_of_fmap in Hr as (ir & -> & Hir).
    rewrite Forall_forall in Hfull. destruct (Hfull ir Hir) as [[n Hn] [u Hu]].
    unfold mismatch, outer_row, stats_of in Hm.
    change (map snd summary) with (summary.*2) in Hm.
    rewrite Hfind in Hm. simpl in Hm. rewrite Hn, Hu in Hm. simpl in Hm.
    by rewrite !Z.eqb_refl in Hm. }
  rewrite Hnone in Hrows. apply Permutation_nil_r in Hrows.
  by apply fmap_nil_inv in Hrows.
Qed.

Lemma compare_summaries_self_witness :
  compare_summaries
    [(0%nat, mkSummary "a" (Some 3) (Some 2));
     (1%nat, mkSummary "b" (Some 1) (Some 1))]
    [(0%nat, mkSummary "a" (Some 3) (Some 2));
     (1%nat, mkSummary "b" (Some 1) (Some 1))]
  = [].
Proof.
  apply compare_summaries_self.
  - exact (bool_decide_unpack (NoDup ["a"; "b"]) I).
  - repeat (constructor; [simpl; eauto|]). constructor.
Defined.

End Differ.

(** ** The dump runner: effects on the file system *)

Section RunnerEffects.

Lemma assoc_put_ne (c c' : string) (n : node) (es : entries_t) :
  c <> c' -> assoc c' (put c n es) = assoc c' es.
Proof.
  intros Hne. induction es as [|[k m] es IH]; simpl.
  - destruct (String.eqb c c') eqn:E; [|done].
    by apply String.eqb_eq in E.
  - destruct (String.eqb k c) eqn:E; simpl.
    + apply String.eqb_eq in E as ->.
      by rewrite (proj2 (String.eqb_neq c c') Hne).
    + by rewrite IH.
Qed.

Lemma assoc_del_ne (c c' : string) (es : entries_t) :
  c <> c' -> assoc c' (del c es) = assoc c' es.
Proof.
  intros Hne. induction es as [|[k m] es IH]; simpl; [done|].
  destruct (String.eqb k c) eqn:E; simpl.
  - apply String.eqb_eq in E as ->.
    by rewrite (proj2 (String.eqb_neq c c') Hne).
  - by rewrite IH.
Qed.

Lemma assoc_None (c : string) (es : entries_t) :
  assoc c es = None <-> c ∉ es.*1.
Proof.
  induction es as [|[k m] es IH]; simpl; [set_solver|].
  destruct (String.eqb k c) eqn:E.
  - apply String.eqb_eq in E. set_solver.
  - apply String.eqb_neq in E. rewrite IH. set_solver.
Qed.

Lemma assoc_del (c : string) (es : entries_t) :
  NoDup es.*1 -> assoc c (del c es) = None.
Proof.
  induction es as [|[k m] es IH]; simpl; [done|]. intros Hnd.
  apply NoDup_cons in Hnd as [Hk Hnd].
  destruct (String.eqb k c) eqn:E; simpl.
  - apply String.eqb_eq in E as ->. by apply assoc_None.
  - rewrite E. by apply IH.
Qed.

Lemma lookup_cons (c : string) (q : list string) (es : entries_t) :
  lookup (c :: q) es
  = match assoc c es with
    | Some n => lookup_node q n
    | None => None
    end.
Proof. reflexivity. Qed.

Lemma lookup_put (c c' : string) (q : list string) (n : node) (es : entries_t) :
  lookup (c' :: q) (put c n es)
  = if String.eqb c c' then lookup_node q n else lookup (c' :: q) es.
Proof.
  rewrite !lookup_cons. destruct (String.eqb c c') eqn:E.
  - apply String.eqb_eq in E as ->. by rewrite assoc_put.
  - apply String.eqb_neq in E. by rewrite assoc_put_ne.
Qed.

Lemma lookup_node_file (q : list string) (data : string) (n : node) :
  lookup_node q (File data) = Some n -> q = [] /\ n = File data.
Proof. destruct q; simpl; [|done]. by intros [= <-]. Qed.

(** Creating directories keeps every file and every directory. *)
Lemma mkdir_parents_keeps (at_path : string) (p q : list string)
    (es es' : entries_t) (n : node) :
  mkdir_parents at_path p es = Ok es' ->
  lookup q es = Some n ->
  match n with
  | File data => lookup q es' = Some (File data)
  | Dir _ => is_dir q es' = true
  end.
Proof.
  revert q es es' n. induction p as [|c p IH]; intros q es es' n Hmk Hq.
  - simpl in Hmk. simplify_eq. unfold is_dir. rewrite Hq. by destruct n.
  - destruct q as [|c' q].
    { unfold lookup in Hq. simpl in Hq. simplify_eq. done. }
    simpl in Hmk. unfold is_dir. rewrite lookup_cons in Hq.
    destruct (assoc c es) as [[data|e1]|] eqn:Hc.
    + by destruct p.
    + destruct (mkdir_parents at_path p e1) as [e2|] eqn:Hrec; simplify_eq/=.
      rewrite lookup_put. destruct (String.eqb c c') eqn:E.
      * apply String.eqb_eq in E as <-. rewrite Hc in Hq.
        specialize (IH q e1 e2 n Hrec Hq). unfold is_dir, lookup in IH.
        by destruct n.
      * rewrite lookup_cons. destruct (assoc c' es); [|done].
        rewrite Hq. by destruct n.
    + simplify_eq/=. rewrite lookup_put. destruct (String.eqb c c') eqn:E.
      * apply String.eqb_eq in E as <-. by rewrite Hc in Hq.
      * rewrite lookup_cons. destruct (assoc c' es); [|done].
        rewrite Hq. by destruct n.
Qed.

Lemma kept_other (c c' : string) (q : list string) (n m : node)
    (es : entries_t) :
  String.eqb c c' = false ->
  lookup (c' :: q) es = Some n -> kept (c' :: q) n (put c m es).
Proof.
  intros E Hq. unfold kept, is_dir. rewrite lookup_put, E, Hq. by destruct n.
Qed.

Lemma kept_below (c : string) (q : list string) (n : node)
    (e2 es : entries_t) :
  kept q n e2 -> kept (c :: q) n (put c (Dir e2) es).
Proof.
  unfold kept, is_dir. rewrite lookup_put, String.eqb_refl.
  by destruct n.
Qed.

(** Writing a file sets its content and keeps everything else. *)
Lemma write_file_spec (at_path : string) (p : list string) (data : string)
    (es es' : entries_t) :
  write_file at_path p data es = Ok es' ->
  lookup p es' = Some (File data)
  /\ (forall q n, q <> p -> lookup q es = Some n -> kept q n es').
Proof.
  revert es es'. induction p as [|c p IH]; intros es es' Hw; [done|].
  destruct p as [|c2 p2].
  - simpl in Hw.
    assert (Hput : es' = put c (File data) es
                   /\ forall e, assoc c es <> Some (Dir e)).
    { destruct (assoc c es) as [[d|e]|]; simplify_eq; split; done. }
    destruct Hput as [-> Hnodir]. split.
    + by rewrite lookup_put, String.eqb_refl.
    + intros [|c' q] n Hne Hq.
      { unfold lookup in Hq. simpl in Hq. by simplify_eq. }
      destruct (String.eqb c c') eqn:E; [|by apply kept_other].
      apply String.eqb_eq in E as <-. rewrite lookup_cons in Hq.
      destruct (assoc c es) as [[d|e]|] eqn:Hc; [| |done].
      * apply lookup_node_file in Hq as [-> _]. done.
      * by destruct (Hnodir e).
  - change (write_file at_path (c :: c2 :: p2) data es)
      with (match assoc c es with
            | None => Raise (enoent at_path)
            | Some (File _) => Raise (enotdir at_path)
            | Some (Dir e1) =>
                es'' <- write_file at_path (c2 :: p2) data e1 ;;
                Ok (put c (Dir es'') es)
            end) in Hw.
    destruct (assoc c es) as [[d|e1]|] eqn:Hc; [done| |done].
    destruct (write_file at_path (c2 :: p2) data e1) as [e2|] eqn:Hrec;
      simplify_eq/=.
    destruct (IH e1 e2 Hrec) as [Hset Hkeep]. split.
    + rewrite lookup_put, String.eqb_refl. exact Hset.
    + intros [|c' q] n Hne Hq.
      { unfold lookup in Hq. simpl in Hq. by simplify_eq. }
      destruct (String.eqb c c') eqn:E; [|by apply kept_other].
      apply String.eqb_eq in E as <-. rewrite lookup_cons, Hc in Hq.
      apply kept_below, Hkeep; [congruence | done].
Qed.

(** A file whose directory exists and that is no directory itself can be
    written. *)
Lemma write_file_ok (at_path : string) (p : list string) (data : string)
    (es : entries_t) :
  p <> [] -> is_dir (parent p) es = true -> is_dir p es = false ->
  exists es', write_file at_path p data es = Ok es'.
Proof.
  revert es. induction p as [|c p IH]; intros es Hne Hparent Hnodir; [done|].
  destruct p as [|c2 p2].
  - unfold is_dir in Hnodir. rewrite lookup_cons in Hnodir. simpl in *.
    destruct (assoc c es) as [[d|e]|]; [by eexists | done | by eexists].
  - change (parent (c :: c2 :: p2)) with (c :: parent (c2 :: p2)) in Hparent.
    change (write_file at_path (c :: c2 :: p2) data es)
      with (match assoc c es with
            | None => Raise (enoent at_path)
            | Some (File _) => Raise (enotdir at_path)
            | Some (Dir e1) =>
                es'' <- write_file at_path (c2 :: p2) data e1 ;;
                Ok (put c (Dir es'') es)
            end).
    unfold is_dir in Hparent, Hnodir. rewrite lookup_cons in Hparent, Hnodir.
    destruct (assoc c es) as [[d|e1]|] eqn:Hc; [| |done].
    + by destruct (parent (c2 :: p2)).
    + destruct (IH e1) as [e2 ->]; [done | exact Hparent | exact Hnodir |].
      by eexists.
Qed.

(** Deleting a file keeps everything else. *)
Lemma unlink_spec (at_path : string) (p : list string) (es es' : entries_t) :
  unlink at_path p es = Ok es' ->
  (exists data, lookup p es = Some (File data))
  /\ (forall q n, q <> p -> lookup q es = Some n -> kept q n es').
Proof.
  revert es es'. induction p as [|c p IH]; intros es es' Hu; [done|].
  destruct p as [|c2 p2].
  - simpl in Hu. rewrite lookup_cons.
    destruct (assoc c es) as [[d|e]|] eqn:Hc; simplify_eq. split.
    + by exists d.
    + intros [|c' q] n Hne Hq.
      { unfold lookup in Hq. simpl in Hq. by simplify_eq. }
      rewrite lookup_cons in Hq. unfold kept, is_dir. rewrite lookup_cons.
      destruct (String.eqb c c') eqn:E.
      * apply String.eqb_eq in E as <-. rewrite Hc in Hq.
        apply lookup_node_file in Hq as [-> _]. done.
      * apply String.eqb_neq in E. rewrite assoc_del_ne by done.
        destruct (assoc c' es); [|done]. rewrite Hq. by destruct n.
  - change (unlink at_path (c :: c2 :: p2) es)
      with (match assoc c es with
            | None => Raise (enoent at_path)
            | Some (File _) => Raise (enotdir at_path)
            | Some (Dir e1) =>
                es'' <- unlink at_path (c2 :: p2) e1 ;;
                Ok (put c (Dir es'') es)
            end) in Hu.
    destruct (assoc c es) as [[d|e1]|] eqn:Hc; [done| |done].
    destruct (unlink at_path (c2 :: p2) e1) as [e2|] eqn:Hrec; simplify_eq/=.
    destruct (IH e1 e2 Hrec) as [Hfile Hkeep]. split.
    + by rewrite lookup_cons, Hc.
    + intros [|c' q] n Hne Hq.
      { unfold lookup in Hq. simpl in Hq. by simplify_eq. }
      destruct (String.eqb c c') eqn:E; [|by apply kept_other].
      apply String.eqb_eq in E as <-. rewrite lookup_cons, Hc in Hq.
      apply kept_below, Hkeep; [congruence | done].
Qed.

Lemma unlink_ok (at_path : string) (p : list string) (data : string)
    (es : entries_t) :
  lookup p es = Some (File data) -> exists es', unlink at_path p es = Ok es'.
Proof.
  unfold lookup. revert es. induction p as [|c p IH]; intros es Hp; [done|].
  destruct p as [|c2 p2].
  - simpl in *. destruct (assoc c es) as [[d|e]|]; simplify_eq. by eexists.
  - change (unlink at_path (c :: c2 :: p2) es)
      with (match assoc c es with
            | None => Raise (enoent at_path)
            | Some (File _) => Raise (enotdir at_path)
            | Some (Dir e1) =>
                es'' <- unlink at_path (c2 :: p2) e1 ;;
                Ok (put c (Dir es'') es)
            end).
    simpl in Hp. destruct (assoc c es) as [[d|e1]|] eqn:Hc; [done| |done].
    destruct (IH e1 Hp) as [e2 ->]. by eexists.
Qed.

Lemma wf_dir (es : entries_t) :
  wf_fs es = true ->
  NoDup es.*1 /\ forall c e1, assoc c es = Some (Dir e1) -> wf_fs e1 = true.
Proof.
  unfold wf_fs. simpl. intros Hwf. apply andb_true_iff in Hwf as [Hnd Hall].
  split; [by apply bool_decide_eq_true in Hnd|]. clear Hnd.
  induction es as [|[k m] es IH]; intros c e1; simpl; [done|].
  apply andb_true_iff in Hall as [Hm Hall].
  destruct (String.eqb k c); [|by apply IH]. by intros [= ->].
Qed.

(** In a well-formed tree a deleted file is gone. *)
Lemma unlink_gone (at_path : string) (p : list string) (es es' : entries_t) :
  wf_fs es = true -> unlink at_path p es = Ok es' -> lookup p es' = None.
Proof.
  revert es es'. induction p as [|c p IH]; intros es es' Hwf Hu; [done|].
  destruct (wf_dir es Hwf) as [Hnd Hsub]. destruct p as [|c2 p2].
  - simpl in Hu. destruct (assoc c es) as [[d|e]|]; simplify_eq.
    rewrite lookup_cons. by rewrite assoc_del.
  - change (unlink at_path (c :: c2 :: p2) es)
      with (match assoc c es with
            | None => Raise (enoent at_path)
            | Some (File _) => Raise (enotdir at_path)
            | Some (Dir e1) =>
                es'' <- unlink at_path (c2 :: p2) e1 ;;
                Ok (put c (Dir es'') es)
            end) in Hu.
    destruct (assoc c es) as [[d|e1]|] eqn:Hc; [done| |done].
    destruct (unlink at_path (c2 :: p2) e1) as [e2|] eqn:Hrec; simplify_eq/=.
    rewrite lookup_put, String.eqb_refl. apply (IH e1 e2); [|done].
    by apply (Hsub c).
Qed.

Lemma fresh_dirs_only (q p : list string) (n : node) :
  lookup q (fresh_dirs p) = Some n -> q `prefix_of` p.
Proof.
  revert p. induction q as [|c q IH]; intros p Hq; [by exists p|].
  destruct p as [|c' p]; [done|]. rewrite lookup_cons in Hq. simpl in Hq.
  destruct (String.eqb c' c) eqn:E; [|done]. apply String.eqb_eq in E as ->.
  apply IH in Hq as [k ->]. by exists k.
Qed.

(** Creating directories adds nothing but the path and its ancestors. *)
Lemma mkdir_parents_only (at_path : string) (p q : list string)
    (es es' : entries_t) :
  mkdir_parents at_path p es = Ok es' ->
  lookup q es = None -> lookup q es' <> None -> q `prefix_of` p.
Proof.
  revert q es es'. induction p as [|c p IH]; intros q es es' Hmk Hq Hq'.
  - simpl in Hmk. by simplify_eq.
  - destruct q as [|c' q]; [done|]. simpl in Hmk.
    rewrite lookup_cons in Hq.
    destruct (assoc c es) as [[data|e1]|] eqn:Hc.
    + by destruct p.
    + destruct (mkdir_parents at_path p e1) as [e2|] eqn:Hrec; simplify_eq/=.
      rewrite lookup_put in Hq'. destruct (String.eqb c c') eqn:E.
      * apply String.eqb_eq in E as <-. rewrite Hc in Hq.
        destruct (IH q e1 e2 Hrec Hq Hq') as [k ->]. by exists k.
      * by rewrite lookup_cons in Hq'.
    + simplify_eq/=. rewrite lookup_put in Hq'.
      destruct (String.eqb c c') eqn:E.
      * apply String.eqb_eq in E as <-.
        destruct (lookup_node q (Dir (fresh_dirs p))) as [n|] eqn:Hl; [|done].
        apply fresh_dirs_only in Hl as [k ->]. by exists k.
      * by rewrite lookup_cons in Hq'.
Qed.

Lemma parent_not_prefix (p : list string) : p <> [] -> ~ p `prefix_of` parent p.
Proof.
  intros Hne Hpre. apply prefix_length in Hpre.
  unfold parent in Hpre. destruct p as [|c p] using rev_ind; [done|].
  rewrite removelast_last, length_app in Hpre. simpl in Hpre. lia.
Qed.

(** The run, unfolded up to its last part: with the root directory there,
    the directories created and the executable found, an absent
    destination goes straight to the last part, and an existing one is
    refused or deleted first. *)
Lemma run_guards (e : env) (root_dir output_csv : Path)
    (extensions : list string) (request_all : Z)
    (largefile_support recursive : bool) (exiftool_cmd tool : string)
    (force : bool) (w : world) (fs1 : entries_t) :
  let dest := resolve e output_csv in
  is_dir (resolve e root_dir) (fs w) = true ->
  mkdir_parents (abs_str (parent dest)) (parent dest) (fs w) = Ok fs1 ->
  which e exiftool_cmd = Some tool ->
  run_exiftool_metadata_dump e root_dir output_csv extensions request_all
    largefile_support recursive exiftool_cmd force w
  = if exists_ dest fs1 then
      if force then
        match unlink (abs_str dest) dest fs1 with
        | Ok fs2 =>
            run_tail e root_dir extensions request_all largefile_support
              recursive exiftool_cmd dest (with_fs w fs2)
        | Raise x => (Raise x, with_fs w fs1)
        end
      else (Raise (conflict dest), with_fs w fs1)
    else run_tail e root_dir extensions request_all largefile_support
           recursive exiftool_cmd dest (with_fs w fs1).
Proof.
  intros dest Hroot Hmk Hwhich.
  unfold run_exiftool_metadata_dump, and_then at 1 2, get_fs at 1, on_fs at 1.
  cbv beta iota. rewrite Hroot. cbn [negb]. fold dest. rewrite Hmk, Hwhich.
  unfold and_then at 1, clear_destination, and_then at 1, get_fs.
  cbn [fs spawned console]. unfold with_fs.
  destruct (exists_ dest fs1); [|done]. destruct force; [|done].
  unfold on_fs. cbn [negb fs spawned console].
  by destruct (unlink (abs_str dest) dest fs1).
Qed.

(** The last part of the run on a world where the destination can be
    written: the result follows the exit status of the child, whose
    output lands in the destination either way. *)
Lemma run_tail_written (e : env) (root_dir : Path) (extensions : list string)
    (request_all : Z) (largefile_support recursive : bool)
    (exiftool_cmd : string) (dest : list string) (w : world)
    (cmd : list string) (fs' : entries_t) :
  build_exiftool_command root_dir extensions request_all largefile_support
    recursive exiftool_cmd = Ok cmd ->
  write_file (abs_str dest) dest (fst (child e cmd)) (fs w) = Ok fs' ->
  let announced :=
    console w ++ ["Running ExifTool... this can take a while on large trees."]
    ++ ["Command: " +:+ join " " cmd] in
  run_tail e root_dir extensions request_all largefile_support recursive
    exiftool_cmd dest w
  = if snd (child e cmd) =? 0
    then (Ok tt,
          mkWorld fs' (spawned w ++ [cmd])
            (announced ++ ["Done. Metadata written to: " +:+ abs_str dest]))
    else (Raise (CalledProcessError (snd (child e cmd)) cmd),
          mkWorld fs' (spawned w ++ [cmd]) announced).
Proof.
  intros Hcmd Hwrite announced. unfold run_tail, and_then, lift, print, run_child.
  rewrite Hcmd. cbn [fs spawned console].
  destruct (child e cmd) as [text status]. simpl in Hwrite. rewrite Hwrite.
  unfold announced. rewrite <- !app_assoc.
  cbn [fst snd]. destruct (status =? 0); cbn [fs spawned console]; [|done].
  by rewrite <- !app_assoc.
Qed.

Lemma kept_step (q : list string) (n : node) (es1 es2 : entries_t) :
  kept q n es1 ->
  (forall n1, lookup q es1 = Some n1 -> kept q n1 es2) ->
  kept q n es2.
Proof.
  unfold kept, is_dir. destruct n as [data|e0]; intros H1 H2.
  - by apply (H2 (File data)).
  - destruct (lookup q es1) as [[d|e1]|] eqn:Hq; try done.
    by apply (H2 (Dir e1)).
Qed.

Lemma exists_nonempty (p : list string) (es : entries_t) :
  exists_ p es = false -> p <> [] /\ lookup p es = None /\ is_dir p es = false.
Proof.
  unfold exists_, is_dir. destruct p; [done|].
  by destruct (lookup (s :: p) es).
Qed.

(** The three ways the last part of the run can end. *)
Lemma run_tail_cases (e : env) (root_dir : Path) (extensions : list string)
    (request_all : Z) (largefile_support recursive : bool)
    (exiftool_cmd : string) (dest : list string) (w w' : world)
    (r : result unit) :
  run_tail e root_dir extensions request_all largefile_support recursive
    exiftool_cmd dest w = (r, w') ->
  let built := build_exiftool_command root_dir extensions request_all
                 largefile_support recursive exiftool_cmd in
  (exists x, built = Raise x /\ r = Raise x /\ w' = w)
  \/ (exists cmd x,
        built = Ok cmd
        /\ write_file (abs_str dest) dest (fst (child e cmd)) (fs w) = Raise x
        /\ r = Raise x /\ fs w' = fs w /\ spawned w' = spawned w)
  \/ (exists cmd fs',
        built = Ok cmd
        /\ write_file (abs_str dest) dest (fst (child e cmd)) (fs w) = Ok fs'
        /\ r = (if snd (child e cmd) =? 0 then Ok tt
                else Raise (CalledProcessError (snd (child e cmd)) cmd))
        /\ fs w' = fs' /\ spawned w' = spawned w ++ [cmd]).
Proof.
  intros Hrun built.
  destruct built as [cmd|x] eqn:Hcmd; subst built.
  - destruct (write_file (abs_str dest) dest (fst (child e cmd)) (fs w))
      as [fs'|x] eqn:Hwrite.
    + right; right. exists cmd, fs'.
      rewrite (run_tail_written _ _ _ _ _ _ _ _ _ _ _ Hcmd Hwrite) in Hrun.
      destruct (snd (child e cmd) =? 0); by simplify_eq.
    + right; left. exists cmd, x.
      unfold run_tail, and_then, lift, print, run_child in Hrun.
      rewrite Hcmd in Hrun. cbn [fs spawned console] in Hrun.
      destruct (child e cmd) as [text status]. simpl in Hwrite.
      rewrite Hwrite in Hrun. by simplify_eq.
  - left. exists x. unfold run_tail, and_then, lift in Hrun.
    rewrite Hcmd in Hrun. by simplify_eq.
Qed.

(** The ways the run can end before its guards are passed. *)
Lemma run_early (e : env) (root_dir output_csv : Path)
    (extensions : list string) (request_all : Z)
    (largefile_support recursive : bool) (exiftool_cmd : string)
    (force : bool) (w w' : world) (r : result unit) :
  let dest := resolve e output_csv in
  run_exiftool_metadata_dump e root_dir output_csv extensions request_all
    largefile_support recursive exiftool_cmd force w = (r, w') ->
  (exists x, r = Raise x /\ w' = w)
  \/ (exists x fs1,
        mkdir_parents (abs_str (parent dest)) (parent dest) (fs w) = Ok fs1
        /\ r = Raise x /\ w' = with_fs w fs1)
  \/ (exists fs1 tool,
        is_dir (resolve e root_dir) (fs w) = true
        /\ mkdir_parents (abs_str (parent dest)) (parent dest) (fs w) = Ok fs1
        /\ which e exiftool_cmd = Some tool
        /\ (exists_ dest fs1 = false \/ force = true)).
Proof.
  intros dest Hrun.
  destruct (is_dir (resolve e root_dir) (fs w)) eqn:Hroot.
  - destruct (mkdir_parents (abs_str (parent dest)) (parent dest) (fs w))
      as [fs1|x] eqn:Hmk.
    + destruct (which e exiftool_cmd) as [tool|] eqn:Hwhich.
      * destruct (exists_ dest fs1) eqn:Hex; [|by right; right; eauto 10].
        destruct force; [by right; right; eauto 10|].
        rewrite (run_guards _ _ _ _ _ _ _ _ _ _ _ _ Hroot Hmk Hwhich) in Hrun.
        fold dest in Hrun. rewrite Hex in Hrun. simplify_eq.
        right; left. eauto.
      * revert Hrun.
        unfold run_exiftool_metadata_dump, and_then, get_fs, on_fs, raise.
        cbv beta iota. rewrite Hroot. cbn [negb]. fold dest.
        rewrite Hmk, Hwhich. intros [= <- <-]. right; left. eauto.
    + revert Hrun.
      unfold run_exiftool_metadata_dump, and_then, get_fs, on_fs, raise.
      cbv beta iota. rewrite Hroot. cbn [negb]. fold dest.
      rewrite Hmk. intros [= <- <-]. left. eauto.
  - revert Hrun.
    unfold run_exiftool_metadata_dump, and_then, get_fs, on_fs, raise.
    cbv beta iota. rewrite Hroot. cbn [negb]. intros [= <- <-]. left. eauto.
Qed.

Lemma kept_refl (q : list string) (n : node) (es : entries_t) :
  lookup q es = Some n -> kept q n es.
Proof. unfold kept, is_dir. intros ->. by destruct n. Qed.

Lemma untouched_refl (dest : list string) (es : entries_t) :
  untouched dest es es.
Proof. intros q n _. apply kept_refl. Qed.

Lemma untouched_trans (dest : list string) (es0 es1 es2 : entries_t) :
  untouched dest es0 es1 -> untouched dest es1 es2 -> untouched dest es0 es2.
Proof.
  intros H1 H2 q n Hq Hn. apply (kept_step q n es1); [by apply H1|].
  intros n1. by apply H2.
Qed.

Lemma mkdir_untouched (at_path : string) (dest p : list string)
    (es es' : entries_t) :
  mkdir_parents at_path p es = Ok es' -> untouched dest es es'.
Proof. intros Hmk q n _ Hq. apply (mkdir_parents_keeps _ _ _ _ _ _ Hmk Hq). Qed.

Lemma write_untouched (at_path : string) (dest : list string) (data : string)
    (es es' : entries_t) :
  write_file at_path dest data es = Ok es' -> untouched dest es es'.
Proof. intros Hw q n. apply write_file_spec in Hw as [_ Hw]. apply Hw. Qed.

Lemma unlink_untouched (at_path : string) (dest : list string)
    (es es' : entries_t) :
  unlink at_path dest es = Ok es' -> untouched dest es es'.
Proof. intros Hu q n. apply unlink_spec in Hu as [_ Hu]. apply Hu. Qed.

(** What holds of the last part of the run however it ends. *)
Lemma run_tail_outcome (e : env) (root_dir : Path) (extensions : list string)
    (request_all : Z) (largefile_support recursive : bool)
    (exiftool_cmd : string) (dest : list string) (w w' : world)
    (r : result unit) :
  run_tail e root_dir extensions request_all largefile_support recursive
    exiftool_cmd dest w = (r, w') ->
  let built := build_exiftool_command root_dir extensions request_all
                 largefile_support recursive exiftool_cmd in
  untouched dest (fs w) (fs w')
  /\ ((spawned w' = spawned w /\ fs w' = fs w /\ r <> Ok tt)
      \/ exists cmd,
           built = Ok cmd /\ spawned w' = spawned w ++ [cmd]
           /\ lookup dest (fs w') = Some (File (fst (child e cmd)))
           /\ r = (if snd (child e cmd) =? 0 then Ok tt
                   else Raise (CalledProcessError (snd (child e cmd)) cmd))).
Proof.
  intros Hrun built.
  destruct (run_tail_cases _ _ _ _ _ _ _ _ _ _ _ Hrun)
    as [(x & Hb & -> & ->) | [(cmd & x & Hb & Hw & -> & Hfs & Hsp)
                             | (cmd & fs' & Hb & Hw & -> & Hfs & Hsp)]].
  - split; [apply untouched_refl|]. by left.
  - rewrite Hfs. split; [apply untouched_refl|]. by left.
  - rewrite Hfs. split; [by eapply write_untouched|]. right. exists cmd.
    by apply write_file_spec in Hw as [Hw _].
Qed.

(** What holds of the run however it ends: nothing but the destination is
    touched, and either no child ran and the run failed, or the built
    command ran once, its output is in the destination and the result
    follows its exit status. *)
Lemma run_outcome (e : env) (root_dir output_csv : Path)
    (extensions : list string) (request_all : Z)
    (largefile_support recursive : bool) (exiftool_cmd : string)
    (force : bool) (w w' : world) (r : result unit) :
  let dest := resolve e output_csv in
  let built := build_exiftool_command root_dir extensions request_all
                 largefile_support recursive exiftool_cmd in
  run_exiftool_metadata_dump e root_dir output_csv extensions request_all
    largefile_support recursive exiftool_cmd force w = (r, w') ->
  untouched dest (fs w) (fs w')
  /\ ((spawned w' = spawned w /\ r <> Ok tt)
      \/ exists cmd,
           built = Ok cmd /\ spawned w' = spawned w ++ [cmd]
           /\ lookup dest (fs w') = Some (File (fst (child e cmd)))
           /\ r = (if snd (child e cmd) =? 0 then Ok tt
                   else Raise (CalledProcessError (snd (child e cmd)) cmd))).
Proof.
  intros dest built Hrun.
  destruct (run_early _ _ _ _ _ _ _ _ _ _ _ _ Hrun)
    as [(x & -> & ->) | [(x & fs1 & Hmk & -> & ->)
                        | (fs1 & tool & Hroot & Hmk & Hwhich & Hgo)]].
  - split; [apply untouched_refl|]. by left.
  - split; [by eapply mkdir_untouched|]. by left.
  - rewrite (run_guards _ _ _ _ _ _ _ _ _ _ _ _ Hroot Hmk Hwhich) in Hrun.
    fold dest in Hrun.
    assert (Htail : forall fs2,
               untouched dest (fs w) fs2 ->
               run_tail e root_dir extensions request_all largefile_support
                 recursive exiftool_cmd dest (with_fs w fs2) = (r, w') ->
               untouched dest (fs w) (fs w')
               /\ ((spawned w' = spawned w /\ r <> Ok tt)
                   \/ exists cmd,
                        built = Ok cmd /\ spawned w' = spawned w ++ [cmd]
                        /\ lookup dest (fs w') = Some (File (fst (child e cmd)))
                        /\ r = (if snd (child e cmd) =? 0 then Ok tt
                                else Raise (CalledProcessError
                                              (snd (child e cmd)) cmd)))).
    { intros fs2 H02 Ht.
      destruct (run_tail_outcome _ _ _ _ _ _ _ _ _ _ _ Ht) as [H2 Hsp].
      split; [by eapply untouched_trans|].
      destruct Hsp as [(Hsp & _ & Hr) | Hsp]; [by left | by right]. }
    destruct (exists_ dest fs1) eqn:Hex.
    + destruct force.
      * destruct (unlink (abs_str dest) dest fs1) as [fs2|x] eqn:Hu.
        -- apply (Htail fs2); [|done].
           eapply untouched_trans; [by eapply mkdir_untouched|].
           by eapply unlink_untouched.
        -- simplify_eq. split; [by eapply mkdir_untouched|]. by left.
      * simplify_eq. split; [by eapply mkdir_untouched|]. by left.
    + apply (Htail fs1); [|done]. by eapply mkdir_untouched.
Qed.

(** A run towards an absent destination, with all guards passed. *)
Lemma run_fresh (e : env) (root_dir output_csv : Path)
    (extensions : list string) (request_all : Z)
    (largefile_support recursive : bool) (exiftool_cmd tool : string)
    (force : bool) (w : world) (cmd : list string) :
  let dest := resolve e output_csv in
  is_dir (resolve e root_dir) (fs w) = true ->
  (forall q data, q `prefix_of` parent dest ->
                  lookup q (fs w) <> Some (File data)) ->
  which e exiftool_cmd = Some tool ->
  exists_ dest (fs w) = false ->
  build_exiftool_command root_dir extensions request_all largefile_support
    recursive exiftool_cmd = Ok cmd ->
  exists w',
    run_exiftool_metadata_dump e root_dir output_csv extensions request_all
      largefile_support recursive exiftool_cmd force w
    = (if snd (child e cmd) =? 0 then Ok tt
       else Raise (CalledProcessError (snd (child e cmd)) cmd), w')
    /\ lookup dest (fs w') = Some (File (fst (child e cmd)))
    /\ spawned w' = spawned w ++ [cmd]
    /\ untouched dest (fs w) (fs w')
    /\ console w' =
         console w
         ++ ["Running ExifTool... this can take a while on large trees.";
             "Command: " +:+ join " " cmd]
         ++ (if snd (child e cmd) =? 0
             then ["Done. Metadata written to: " +:+ abs_str dest] else []).
Proof.
  intros dest Hroot Hfree Hwhich Habsent Hcmd.
  destruct (mkdir_parents_ok (abs_str (parent dest)) _ _ Hfree) as [fs1 Hmk].
  destruct (exists_nonempty _ _ Habsent) as (Hne & Hnone & _).
  assert (Hnone1 : lookup dest fs1 = None).
  { destruct (lookup dest fs1) eqn:Hl; [|done].
    destruct (parent_not_prefix dest Hne).
    apply (mkdir_parents_only _ _ _ _ _ Hmk Hnone). by rewrite Hl. }
  assert (Hex1 : exists_ dest fs1 = false) by (unfold exists_; by rewrite Hnone1).
  destruct (write_file_ok (abs_str dest) dest (fst (child e cmd)) fs1)
    as [fs3 Hwrite]; [done | | |].
  { by apply (mkdir_parents_creates _ _ _ _ _ Hmk). }
  { unfold is_dir. by rewrite Hnone1. }
  rewrite (run_guards _ _ _ _ _ _ _ _ _ _ _ _ Hroot Hmk Hwhich).
  fold dest. rewrite Hex1.
  rewrite (run_tail_written _ _ _ _ _ _ _ _ (with_fs w fs1) cmd fs3 Hcmd Hwrite).
  cbn [with_fs fs spawned console].
  assert (Hset : lookup dest fs3 = Some (File (fst (child e cmd))))
    by (by apply write_file_spec in Hwrite as [Hset _]).
  assert (Hkeep : untouched dest (fs w) fs3)
    by (eapply untouched_trans;
        [by eapply mkdir_untouched | by eapply write_untouched]).
  destruct (snd (child e cmd) =? 0); eexists; (split; [reflexivity|]);
    cbn [fs spawned console]; (split; [exact Hset|]); (split; [done|]);
    (split; [exact Hkeep|]).
  - by rewrite <- !app_assoc.
  - by rewrite app_nil_r.
Qed.

Lemma parent_neq (p : list string) : p <> [] -> parent p <> p.
Proof.
  intros Hne Heq. apply (parent_not_prefix p Hne). by rewrite Heq.
Qed.

(** A run on an existing regular file with [force], in a well-formed
    tree: the file is deleted, then the last part of the run starts from
    a tree where the destination is absent and its directory is there. *)
Lemma run_forced (e : env) (root_dir output_csv : Path)
    (extensions : list string) (request_all : Z)
    (largefile_support recursive : bool) (exiftool_cmd tool : string)
    (w : world) (old : string) :
  let dest := resolve e output_csv in
  is_dir (resolve e root_dir) (fs w) = true ->
  which e exiftool_cmd = Some tool ->
  wf_fs (fs w) = true ->
  lookup dest (fs w) = Some (File old) ->
  exists fs2,
    run_exiftool_metadata_dump e root_dir output_csv extensions request_all
      largefile_support recursive exiftool_cmd true w
    = run_tail e root_dir extensions request_all largefile_support recursive
        exiftool_cmd dest (with_fs w fs2)
    /\ lookup dest fs2 = None
    /\ is_dir (parent dest) fs2 = true
    /\ untouched dest (fs w) fs2
    /\ dest <> [].
Proof.
  intros dest Hroot Hwhich Hwf Hold.
  assert (Hne : dest <> []) by (intros Heq; by rewrite Heq in Hold).
  assert (Hex : exists_ dest (fs w) = true) by (unfold exists_; by rewrite Hold).
  destruct (exists_parent_dir _ _ Hex) as [d Hd].
  pose proof (mkdir_parents_existing (abs_str (parent dest)) _ _ _ Hd) as Hmk.
  destruct (unlink_ok (abs_str dest) _ _ _ Hold) as [fs2 Hu].
  exists fs2. rewrite (run_guards _ _ _ _ _ _ _ _ _ _ _ _ Hroot Hmk Hwhich).
  fold dest. rewrite Hex, Hu. split; [done|].
  split; [by apply (unlink_gone _ _ _ _ Hwf Hu)|].
  split; [|split; [by eapply unlink_untouched | done]].
  apply (unlink_untouched _ _ _ _ Hu (parent dest) (Dir d));
    [by apply parent_neq | done].
Qed.

End RunnerEffects.

(** ** The dump runner: what a run does and leaves alone *)

Section RunnerProperties.

(** X1: whatever the arguments and however the run ends, every regular
    file other than the destination keeps its content and every directory
    stays a directory. *)
Theorem run_leaves_other_files (e : env) (root_dir output_csv : Path)
    (extensions : list string) (request_all : Z)
    (largefile_support recursive : bool) (exiftool_cmd : string)
    (force : bool) (w w' : world) (r : result unit) (q : list string) :
  run_exiftool_metadata_dump e root_dir output_csv extensions request_all
    largefile_support recursive exiftool_cmd force w = (r, w') ->
  q <> resolve e output_csv ->
  (forall data, lookup q (fs w) = Some (File data) ->
                lookup q (fs w') = Some (File data))
  /\ (is_dir q (fs w) = true -> is_dir q (fs w') = true).
Proof.
  intros Hrun Hq. destruct (run_outcome _ _ _ _ _ _ _ _ _ _ _ _ Hrun) as [Hk _].
  split.
  - intros data Hl. apply (Hk q (File data) Hq Hl).
  - unfold is_dir at 1. destruct (lookup q (fs w)) as [[d|es]|] eqn:Hl; try done.
    intros _. apply (Hk q (Dir es) Hq Hl).
Qed.

Lemma run_leaves_other_files_witness :
  let w := mkWorld [("data", Dir [("a.pdf", File "pdf")]);
                    ("out", Dir [("m.csv", File "old")])] [] [] in
  let e := mkEnv [] (fun _ => Some "/usr/bin/exiftool") (fun _ => ("csv", 0)) in
  let w' := snd (run_exiftool_metadata_dump e (mkPath true ["data"])
                   (mkPath true ["out"; "m.csv"]) ["pdf"] 3 true true
                   "exiftool" true w) in
  lookup ["data"; "a.pdf"] (fs w') = Some (File "pdf")
  /\ lookup ["out"; "m.csv"] (fs w') = Some (File "csv").
Proof.
  intros w e w'. split; [|reflexivity].
  apply (proj1 (run_leaves_other_files e (mkPath true ["data"])
                  (mkPath true ["out"; "m.csv"]) ["pdf"] 3 true true
                  "exiftool" true w w' (Ok tt) ["data"; "a.pdf"]
                  eq_refl ltac:(discriminate)) "pdf").
  reflexivity.
Defined.

(** X2: a run starts at most one child process, and only the command that
    [build_exiftool_command] returns; a run that starts none fails. *)
Theorem run_spawns_at_most_once (e : env) (root_dir output_csv : Path)
    (extensions : list string) (request_all : Z)
    (largefile_support recursive : bool) (exiftool_cmd : string)
    (force : bool) (w w' : world) (r : result unit) :
  run_exiftool_metadata_dump e root_dir output_csv extensions request_all
    largefile_support recursive exiftool_cmd force w = (r, w') ->
  (spawned w' = spawned w /\ r <> Ok tt)
  \/ exists cmd,
       build_exiftool_command root_dir extensions request_all
         largefile_support recursive exiftool_cmd = Ok cmd
       /\ spawned w' = spawned w ++ [cmd].
Proof.
  intros Hrun. destruct (run_outcome _ _ _ _ _ _ _ _ _ _ _ _ Hrun) as [_ Hsp].
  destruct Hsp as [Hno | (cmd & Hb & Hs & _)]; [by left|].
  right. by exists cmd.
Qed.

Lemma run_spawns_at_most_once_witness :
  let w := mkWorld [("data", Dir [])] [] [] in
  let e := mkEnv [] (fun _ => Some "/usr/bin/exiftool") (fun _ => ("csv", 0)) in
  let w' := snd (run_exiftool_metadata_dump e (mkPath true ["data"])
                   (mkPath true ["m.csv"]) [" . "] 3 true true "exiftool"
                   false w) in
  spawned w' = [].
Proof.
  intros w e w'.
  destruct (run_spawns_at_most_once e (mkPath true ["data"])
              (mkPath true ["m.csv"]) [" . "] 3 true true "exiftool" false
              w w' (Raise no_extension) eq_refl)
    as [[Hs _] | (cmd & Hb & _)]; [exact Hs | discriminate Hb].
Defined.

(** X3: a run that returns normally has run the built command, the child
    exited with status 0, and the destination holds exactly what the
    child printed. *)
Theorem run_success_means_written (e : env) (root_dir output_csv : Path)
    (extensions : list string) (request_all : Z)
    (largefile_support recursive : bool) (exiftool_cmd : string)
    (force : bool) (w w' : world) :
  run_exiftool_metadata_dump e root_dir output_csv extensions request_all
    largefile_support recursive exiftool_cmd force w = (Ok tt, w') ->
  exists cmd,
    build_exiftool_command root_dir extensions request_all
      largefile_support recursive exiftool_cmd = Ok cmd
    /\ snd (child e cmd) = 0
    /\ lookup (resolve e output_csv) (fs w')
       = Some (File (fst (child e cmd)))
    /\ spawned w' = spawned w ++ [cmd].
Proof.
  intros Hrun. destruct (run_outcome _ _ _ _ _ _ _ _ _ _ _ _ Hrun) as [_ Hsp].
  destruct Hsp as [[_ Hr] | (cmd & Hb & Hs & Hl & Hr)]; [done|].
  exists cmd. repeat split; try done.
  destruct (snd (child e cmd) =? 0) eqn:E; [|done]. by apply Z.eqb_eq.
Qed.

Lemma run_success_means_written_witness :
  let w := mkWorld [("data", Dir [])] [] [] in
  let e := mkEnv [] (fun _ => Some "/usr/bin/exiftool") (fun _ => ("csv", 0)) in
  let w' := snd (run_exiftool_metadata_dump e (mkPath true ["data"])
                   (mkPath true ["out"; "m.csv"]) ["pdf"] 3 true true
                   "exiftool" false w) in
  exists cmd,
    build_exiftool_command (mkPath true ["data"]) ["pdf"] 3 true true
      "exiftool" = Ok cmd
    /\ snd (child e cmd) = 0
    /\ lookup ["out"; "m.csv"] (fs w') = Some (File (fst (child e cmd)))
    /\ spawned w' = spawned w ++ [cmd].
Proof.
  intros w e w'.
  exact (run_success_means_written e (mkPath true ["data"])
           (mkPath true ["out"; "m.csv"]) ["pdf"] 3 true true "exiftool" false
           w w' eq_refl).
Defined.

(** X4: with the root directory there, no regular file in the way of the
    destination's directories, the executable found, the destination
    absent and the command built, a child that exits with status 0 makes
    the run return normally: the missing directories are created, the
    destination holds the child's output, the command has run once, and
    three lines are printed, the last one announcing the destination. *)
Theorem run_fresh_success (e : env) (root_dir output_csv : Path)
    (extensions : list string) (request_all : Z)
    (largefile_support recursive : bool) (exiftool_cmd tool : string)
    (force : bool) (w : world) (cmd : list string) :
  let dest := resolve e output_csv in
  is_dir (resolve e root_dir) (fs w) = true ->
  (forall q data, q `prefix_of` parent dest ->
                  lookup q (fs w) <> Some (File data)) ->
  which e exiftool_cmd = Some tool ->
  exists_ dest (fs w) = false ->
  build_exiftool_command root_dir extensions request_all largefile_support
    recursive exiftool_cmd = Ok cmd ->
  snd (child e cmd) = 0 ->
  exists w',
    run_exiftool_metadata_dump e root_dir output_csv extensions request_all
      largefile_support recursive exiftool_cmd force w = (Ok tt, w')
    /\ lookup dest (fs w') = Some (File (fst (child e cmd)))
    /\ spawned w' = spawned w ++ [cmd]
    /\ console w' =
         console w
         ++ ["Running ExifTool... this can take a while on large trees.";
             "Command: " +:+ join " " cmd;
             "Done. Metadata written to: " +:+ abs_str dest].
Proof.
  intros dest Hroot Hfree Hwhich Habsent Hcmd Hstatus.
  destruct (run_fresh e root_dir output_csv extensions request_all
              largefile_support recursive exiftool_cmd tool force w cmd
              Hroot Hfree Hwhich Habsent Hcmd)
    as (w' & Hrun & Hset & Hsp & _ & Hcon).
  rewrite Hstatus in Hrun, Hcon. simpl in Hrun, Hcon. by exists w'.
Qed.

Lemma run_fresh_success_witness :
  let w := mkWorld [("data", Dir [])] [] [] in
  let e := mkEnv [] (fun _ => Some "/usr/bin/exiftool") (fun _ => ("csv", 0)) in
  exists w',
    run_exiftool_metadata_dump e (mkPath true ["data"])
      (mkPath true ["out"; "new"; "m.csv"]) ["pdf"] 3 true true "exiftool"
      false w = (Ok tt, w')
    /\ lookup ["out"; "new"; "m.csv"] (fs w') = Some (File "csv")
    /\ spawned w'
       = [] ++ [["exiftool"; "-api"; "RequestAll=3"; "-api";
                 "largefilesupport=1"; "-G1"; "-csv"; "-r"; "-ext"; "pdf";
                 "/data"]]
    /\ console w'
       = [] ++ ["Running ExifTool... this can take a while on large trees.";
                "Command: exiftool -api RequestAll=3 -api largefilesupport=1 -G1 -csv -r -ext pdf /data";
                "Done. Metadata written to: /out/new/m.csv"].
Proof.
  intros w e.
  apply (run_fresh_success e (mkPath true ["data"])
           (mkPath true ["out"; "new"; "m.csv"]) ["pdf"] 3 true true
           "exiftool" "/usr/bin/exiftool" false w
           ["exiftool"; "-api"; "RequestAll=3"; "-api"; "largefilesupport=1";
            "-G1"; "-csv"; "-r"; "-ext"; "pdf"; "/data"] eq_refl);
    [|reflexivity..].
  intros q data [k Hk].
  destruct q as [|c1 [|c2 [|c3 q]]]; simplify_eq/=; done.
Defined.

(** X5: under the same conditions, a child that exits with another status
    makes the run raise the called-process error, and what the child had
    printed stays in the destination: nothing is rolled back, and the
    closing line is not printed. *)
Theorem run_child_failure_keeps_output (e : env) (root_dir output_csv : Path)
    (extensions : list string) (request_all : Z)
    (largefile_support recursive : bool) (exiftool_cmd tool : string)
    (force : bool) (w : world) (cmd : list string) :
  let dest := resolve e output_csv in
  is_dir (resolve e root_dir) (fs w) = true ->
  (forall q data, q `prefix_of` parent dest ->
                  lookup q (fs w) <> Some (File data)) ->
  which e exiftool_cmd = Some tool ->
  exists_ dest (fs w) = false ->
  build_exiftool_command root_dir extensions request_all largefile_support
    recursive exiftool_cmd = Ok cmd ->
  snd (child e cmd) <> 0 ->
  exists w',
    run_exiftool_metadata_dump e root_dir output_csv extensions request_all
      largefile_support recursive exiftool_cmd force w
    = (Raise (CalledProcessError (snd (child e cmd)) cmd), w')
    /\ lookup dest (fs w') = Some (File (fst (child e cmd)))
    /\ spawned w' = spawned w ++ [cmd]
    /\ console w' =
         console w
         ++ ["Running ExifTool... this can take a while on large trees.";
             "Command: " +:+ join " " cmd].
Proof.
  intros dest Hroot Hfree Hwhich Habsent Hcmd Hstatus.
  destruct (run_fresh e root_dir output_csv extensions request_all
              largefile_support recursive exiftool_cmd tool force w cmd
              Hroot Hfree Hwhich Habsent Hcmd)
    as (w' & Hrun & Hset & Hsp & _ & Hcon).
  apply Z.eqb_neq in Hstatus. rewrite Hstatus in Hrun, Hcon.
  rewrite app_nil_r in Hcon. by exists w'.
Qed.

Lemma run_child_failure_keeps_output_witness :
  let w := mkWorld [("data", Dir [])] [] [] in
  let e := mkEnv [] (fun _ => Some "/usr/bin/exiftool")
             (fun _ => ("partial", 2)) in
  exists w',
    run_exiftool_metadata_dump e (mkPath true ["data"])
      (mkPath true ["m.csv"]) ["pdf"] 3 false false "exiftool" false w
    = (Raise (CalledProcessError 2
                ["exiftool"; "-api"; "RequestAll=3"; "-G1"; "-csv"; "-ext";
                 "pdf"; "/data"]), w')
    /\ lookup ["m.csv"] (fs w') = Some (File "partial")
    /\ spawned w'
       = [] ++ [["exiftool"; "-api"; "RequestAll=3"; "-G1"; "-csv"; "-ext";
                 "pdf"; "/data"]]
    /\ console w'
       = [] ++ ["Running ExifTool... this can take a while on large trees.";
                "Command: exiftool -api RequestAll=3 -G1 -csv -ext pdf /data"].
Proof.
  intros w e.
  apply (run_child_failure_keeps_output e (mkPath true ["data"])
           (mkPath true ["m.csv"]) ["pdf"] 3 false false "exiftool"
           "/usr/bin/exiftool" false w
           ["exiftool"; "-api"; "RequestAll=3"; "-G1"; "-csv"; "-ext"; "pdf";
            "/data"] eq_refl);
    [|reflexivity | reflexivity | reflexivity | discriminate].
  intros q data [k Hk]. destruct q; simplify_eq/=; done.
Defined.

(** X6: a second run towards the same destination, without [force], after
    a run that returned normally: it raises the already-exists error and
    leaves the world of the first run, its output included, as it is. *)
Theorem run_twice_conflicts (e : env) (root_dir output_csv : Path)
    (extensions : list string) (request_all : Z)
    (largefile_support recursive : bool) (exiftool_cmd tool : string)
    (w : world) (cmd : list string) :
  let dest := resolve e output_csv in
  let run := run_exiftool_metadata_dump e root_dir output_csv extensions
               request_all largefile_support recursive exiftool_cmd false in
  is_dir (resolve e root_dir) (fs w) = true ->
  (forall q data, q `prefix_of` parent dest ->
                  lookup q (fs w) <> Some (File data)) ->
  which e exiftool_cmd = Some tool ->
  exists_ dest (fs w) = false ->
  build_exiftool_command root_dir extensions request_all largefile_support
    recursive exiftool_cmd = Ok cmd ->
  snd (child e cmd) = 0 ->
  exists w1,
    run w = (Ok tt, w1)
    /\ run w1 = (Raise (conflict dest), w1)
    /\ lookup dest (fs w1) = Some (File (fst (child e cmd))).
Proof.
  intros dest run Hroot Hfree Hwhich Habsent Hcmd Hstatus. subst run.
  destruct (run_fresh e root_dir output_csv extensions request_all
              largefile_support recursive exiftool_cmd tool false w cmd
              Hroot Hfree Hwhich Habsent Hcmd)
    as (w1 & Hrun & Hset & _ & Hkeep & _).
  rewrite Hstatus in Hrun. simpl in Hrun. exists w1.
  split; [done|]. split; [|done].
  assert (Hroot1 : is_dir (resolve e root_dir) (fs w1) = true).
  { unfold is_dir in Hroot.
    destruct (lookup (resolve e root_dir) (fs w)) as [[d|es]|] eqn:Hl; try done.
    apply (Hkeep _ (Dir es)); [|done]. intros Heq. rewrite Heq in Hl.
    unfold exists_ in Habsent. fold dest in Hl. by rewrite Hl in Habsent. }
  assert (Hex : exists_ dest (fs w1) = true)
    by (unfold exists_, dest; by rewrite Hset).
  destruct (exists_parent_dir _ _ Hex) as [d Hd].
  pose proof (mkdir_parents_existing (abs_str (parent dest)) _ _ _ Hd) as Hmk.
  rewrite (run_guards _ _ _ _ _ _ _ _ _ _ _ _ Hroot1 Hmk Hwhich).
  fold dest. rewrite Hex. unfold with_fs. by rewrite world_eta.
Qed.

Lemma run_twice_conflicts_witness :
  let w := mkWorld [("data", Dir [])] [] [] in
  let e := mkEnv [] (fun _ => Some "/usr/bin/exiftool") (fun _ => ("csv", 0)) in
  let run := run_exiftool_metadata_dump e (mkPath true ["data"])
               (mkPath true ["m.csv"]) ["pdf"] 3 true true "exiftool" false in
  exists w1,
    run w = (Ok tt, w1)
    /\ run w1 = (Raise (conflict ["m.csv"]), w1)
    /\ lookup ["m.csv"] (fs w1) = Some (File "csv").
Proof.
  intros w e run.
  apply (run_twice_conflicts e (mkPath true ["data"]) (mkPath true ["m.csv"])
           ["pdf"] 3 true true "exiftool" "/usr/bin/exiftool" w
           ["exiftool"; "-api"; "RequestAll=3"; "-api"; "largefilesupport=1";
            "-G1"; "-csv"; "-r"; "-ext"; "pdf"; "/data"] eq_refl);
    [|reflexivity..].
  intros q data [k Hk]. destruct q; simplify_eq/=; done.
Defined.

(** X7: with [force], an existing regular file at the destination is
    replaced: in a well-formed tree, with the root directory there, the
    executable found and the command built, the child runs and the
    destination holds its output instead of the old content, whatever
    the exit status. *)
Theorem run_force_replaces (e : env) (root_dir output_csv : Path)
    (extensions : list string) (request_all : Z)
    (largefile_support recursive : bool) (exiftool_cmd tool : string)
    (w : world) (cmd : list string) (old : string) :
  let dest := resolve e output_csv in
  is_dir (resolve e root_dir) (fs w) = true ->
  which e exiftool_cmd = Some tool ->
  wf_fs (fs w) = true ->
  lookup dest (fs w) = Some (File old) ->
  build_exiftool_command root_dir extensions request_all largefile_support
    recursive exiftool_cmd = Ok cmd ->
  exists w',
    run_exiftool_metadata_dump e root_dir output_csv extensions request_all
      largefile_support recursive exiftool_cmd true w
    = (if snd (child e cmd) =? 0 then Ok tt
       else Raise (CalledProcessError (snd (child e cmd)) cmd), w')
    /\ lookup dest (fs w') = Some (File (fst (child e cmd)))
    /\ spawned w' = spawned w ++ [cmd].
Proof.
  intros dest Hroot Hwhich Hwf Hold Hcmd.
  destruct (run_forced e root_dir output_csv extensions request_all
              largefile_support recursive exiftool_cmd tool w old
              Hroot Hwhich Hwf Hold)
    as (fs2 & Hrun & Hgone & Hparent & _ & Hne).
  destruct (write_file_ok (abs_str dest) dest (fst (child e cmd)) fs2)
    as [fs3 Hwrite]; [done | done | |].
  { unfold is_dir. fold dest in Hgone. by rewrite Hgone. }
  fold dest in Hrun. rewrite Hrun.
  rewrite (run_tail_written _ _ _ _ _ _ _ _ (with_fs w fs2) cmd fs3 Hcmd Hwrite).
  apply write_file_spec in Hwrite as [Hset _].
  destruct (snd (child e cmd) =? 0); by eexists.
Qed.

Lemma run_force_replaces_witness :
  let w := mkWorld [("data", Dir []); ("out", Dir [("m.csv", File "old")])]
             [] [] in
  let e := mkEnv [] (fun _ => Some "/usr/bin/exiftool") (fun _ => ("csv", 0)) in
  exists w',
    run_exiftool_metadata_dump e (mkPath true ["data"])
      (mkPath true ["out"; "m.csv"]) ["pdf"] 3 true true "exiftool" true w
    = (Ok tt, w')
    /\ lookup ["out"; "m.csv"] (fs w') = Some (File "csv")
    /\ spawned w'
       = [] ++ [["exiftool"; "-api"; "RequestAll=3"; "-api";
                 "largefilesupport=1"; "-G1"; "-csv"; "-r"; "-ext"; "pdf";
                 "/data"]].
Proof.
  intros w e.
  exact (run_force_replaces e (mkPath true ["data"])
           (mkPath true ["out"; "m.csv"]) ["pdf"] 3 true true "exiftool"
           "/usr/bin/exiftool" w _ "old" eq_refl eq_refl eq_refl eq_refl
           eq_refl).
Defined.

(** X8: the extensions are validated only after the destination is
    cleared: with [force], an existing regular file at the destination
    and a list of extensions that normalizes to nothing, the run raises
    the no-extension error, and the file is gone all the same; no child
    runs and nothing is printed. *)
Theorem run_force_deletes_before_validation (e : env)
    (root_dir output_csv : Path) (extensions : list string) (request_all : Z)
    (largefile_support recursive : bool) (exiftool_cmd tool : string)
    (w : world) (old : string) :
  let dest := resolve e output_csv in
  is_dir (resolve e root_dir) (fs w) = true ->
  which e exiftool_cmd = Some tool ->
  wf_fs (fs w) = true ->
  lookup dest (fs w) = Some (File old) ->
  normalized extensions = [] ->
  exists w',
    run_exiftool_metadata_dump e root_dir output_csv extensions request_all
      largefile_support recursive exiftool_cmd true w
    = (Raise no_extension, w')
    /\ lookup dest (fs w') = None
    /\ spawned w' = spawned w
    /\ console w' = console w.
Proof.
  intros dest Hroot Hwhich Hwf Hold Hnone.
  destruct (run_forced e root_dir output_csv extensions request_all
              largefile_support recursive exiftool_cmd tool w old
              Hroot Hwhich Hwf Hold)
    as (fs2 & Hrun & Hgone & _).
  exists (with_fs w fs2). fold dest in Hrun, Hgone. rewrite Hrun.
  unfold run_tail, and_then, lift, build_exiftool_command.
  rewrite normalize_extensions_closed, Hnone. by simpl.
Qed.

Lemma run_force_deletes_before_validation_witness :
  let w := mkWorld [("data", Dir []); ("out", Dir [("m.csv", File "old")])]
             [] [] in
  let e := mkEnv [] (fun _ => Some "/usr/bin/exiftool") (fun _ => ("csv", 0)) in
  exists w',
    run_exiftool_metadata_dump e (mkPath true ["data"])
      (mkPath true ["out"; "m.csv"]) [" . "; ""] 3 true true "exiftool" true w
    = (Raise no_extension, w')
    /\ lookup ["out"; "m.csv"] (fs w') = None
    /\ spawned w' = []
    /\ console w' = [].
Proof.
  intros w e.
  exact (run_force_deletes_before_validation e (mkPath true ["data"])
           (mkPath true ["out"; "m.csv"]) [" . "; ""] 3 true true "exiftool"
           "/usr/bin/exiftool" w "old" eq_refl eq_refl eq_refl eq_refl
           eq_refl).
Defined.

(** X9: [main] returns 0 or 1.  On 0 nothing goes to standard error, the
    command built from the arguments (large-file support and recursion on
    unless switched off) has run with exit status 0 and the destination
    holds its output; on 1 the run has raised and the one line
    [Error: ...] with the text of the exception goes to standard error. *)
Theorem main_exit_status (exc_text : exn -> string) (e : env) (args : Args.t)
    (w : world) :
  let run := run_exiftool_metadata_dump e (Args.root_dir args)
               (Args.output args) (Args.extensions args)
               (Args.request_all args)
               (negb (Args.no_largefile_support args))
               (negb (Args.no_recursive args)) (Args.exiftool_cmd args)
               (Args.force args) w in
  match main exc_text e args w with
  | (status, err, w') =>
      (status = 0 /\ err = [] /\ run = (Ok tt, w')
       /\ exists cmd,
            build_exiftool_command (Args.root_dir args) (Args.extensions args)
              (Args.request_all args) (negb (Args.no_largefile_support args))
              (negb (Args.no_recursive args)) (Args.exiftool_cmd args)
            = Ok cmd
            /\ snd (child e cmd) = 0
            /\ lookup (resolve e (Args.output args)) (fs w')
               = Some (File (fst (child e cmd))))
      \/ (status = 1
          /\ exists exc, err = ["Error: " +:+ exc_text exc]
                         /\ run = (Raise exc, w'))
  end.
Proof.
  intros run. unfold main. fold run. destruct run as [[[]|exc] w'] eqn:Hrun.
  - left. repeat split; try done. subst run.
    destruct (run_outcome _ _ _ _ _ _ _ _ _ _ _ _ Hrun) as [_ Hsp].
    destruct Hsp as [[_ Hr] | (cmd & Hb & Hs & Hl & Hr)]; [done|].
    exists cmd. repeat split; try done.
    destruct (snd (child e cmd) =? 0) eqn:E; [|done]. by apply Z.eqb_eq.
  - right. split; [done|]. by exists exc.
Qed.

End RunnerProperties.

(** ** Extension normalization: what the output looks like *)

Section NormalizedExtensions.

Lemma lower_char_idem (c : ascii) : lower_char (lower_char c) = lower_char c.
Proof. destruct c as [[] [] [] [] [] [] [] []]; reflexivity. Qed.

Lemma isspace_lower_char (c : ascii) : isspace (lower_char c) = isspace c.
Proof. destruct c as [[] [] [] [] [] [] [] []]; reflexivity. Qed.

Lemma lower_idem (s : string) : lower (lower s) = lower s.
Proof.
  induction s as [|c s IH]; simpl; [done|]. by rewrite lower_char_idem, IH.
Qed.

Lemma lower_tail (s : string) : lower (tail s) = tail (lower s).
Proof. by destruct s. Qed.

Lemma lower_lstrip (s : string) : lstrip (lower s) = lower (lstrip s).
Proof.
  induction s as [|c s IH]; simpl; [done|].
  rewrite isspace_lower_char. by destruct (isspace c).
Qed.

Lemma lower_rstrip (s : string) : rstrip (lower s) = lower (rstrip s).
Proof.
  induction s as [|c s IH]; simpl; [done|].
  rewrite IH, isspace_lower_char.
  destruct (rstrip s) as [|c' r]; simpl; [|done]. by destruct (isspace c).
Qed.

Lemma lower_strip (s : string) : strip (lower s) = lower (strip s).
Proof. unfold strip. by rewrite lower_lstrip, lower_rstrip. Qed.

Lemma startswith_dot_lower (s : string) :
  startswith_dot (lower s) = startswith_dot s.
Proof.
  destruct s as [|c s]; [done|].
  destruct c as [[] [] [] [] [] [] [] []]; reflexivity.
Qed.

Lemma rstrip_idem (s : string) : rstrip (rstrip s) = rstrip s.
Proof.
  induction s as [|c s IH]; simpl; [done|].
  destruct (rstrip s) as [|c' r] eqn:Hr.
  - destruct (isspace c) eqn:Hc; simpl; [done|]. by rewrite Hc.
  - change (rstrip (String c (String c' r)))
      with (match rstrip (String c' r) with
            | EmptyString =>
                if isspace c then EmptyString else String c EmptyString
            | r0 => String c r0
            end).
    by rewrite IH.
Qed.

Lemma rstrip_tail (s : string) : rstrip s = s -> rstrip (tail s) = tail s.
Proof.
  destruct s as [|c s]; simpl; [done|].
  destruct (rstrip s) as [|c' r] eqn:Hr.
  - destruct (isspace c); [done|]. by intros [= <-].
  - by intros [= <-].
Qed.

Lemma rstrip_strip (s : string) : rstrip (strip s) = strip s.
Proof. unfold strip. apply rstrip_idem. Qed.

Lemma normalize_one_output (ext x : string) :
  normalize_one ext = Some x ->
  x <> "" /\ lower x = x /\ rstrip x = x.
Proof.
  unfold normalize_one.
  set (l := lower (strip ext)).
  assert (Hl : lower l = l) by apply lower_idem.
  assert (Hr : rstrip l = l)
    by (unfold l; by rewrite lower_rstrip, rstrip_strip).
  destruct (startswith_dot l).
  - destruct (tail l) eqn:Ht; simpl; [done|]. intros [= <-].
    rewrite <- Ht. split; [by rewrite Ht|].
    split; [by rewrite lower_tail, Hl | by apply rstrip_tail].
  - destruct l; simpl; [done|]. by intros [= <-].
Qed.

Lemma normalize_one_lower (ext : string) :
  normalize_one (lower ext) = normalize_one ext.
Proof. unfold normalize_one. by rewrite lower_strip, lower_idem. Qed.

Lemma normalize_one_clean (ext : string) :
  strip ext = ext -> ext <> "" -> startswith_dot ext = false ->
  normalize_one ext = Some (lower ext)
  /\ normalize_one (String "." ext) = Some (lower ext).
Proof.
  intros Hstrip Hne Hdot.
  assert (Hlow : falsy (lower ext) = false) by (by destruct ext).
  split.
  - unfold normalize_one. rewrite Hstrip, startswith_dot_lower, Hdot.
    by rewrite Hlow.
  - assert (Hr : rstrip ext = ext) by (by rewrite <- Hstrip, rstrip_strip).
    assert (Hs : strip (String "." ext) = String "." ext).
    { unfold strip. simpl. rewrite Hr. by destruct ext. }
    unfold normalize_one. rewrite Hs. simpl. by rewrite Hlow.
Qed.

(** X10: every extension that [normalize_extensions] returns is non-empty,
    lowercase and free of trailing blanks; the list is non-empty and no
    longer than the input. *)
Theorem normalize_extensions_output (extensions exts : list string) :
  normalize_extensions extensions = Ok exts ->
  exts <> []
  /\ Forall (fun x => x <> "" /\ lower x = x /\ rstrip x = x) exts
  /\ (length exts <= length extensions)%nat.
Proof.
  rewrite normalize_extensions_closed. unfold normalized.
  destruct (omap normalize_one extensions) as [|x xs] eqn:Ho; [done|].
  intros [= <-]. split; [done|]. split.
  - rewrite <- Ho. apply Forall_forall. intros y Hy.
    apply list_elem_of_omap in Hy as (ext & _ & Hext).
    by apply (normalize_one_output ext).
  - rewrite <- Ho. clear. induction extensions as [|ext l IH]; [done|].
    csimpl. destruct (normalize_one ext); simpl; lia.
Qed.

Lemma normalize_extensions_output_witness :
  Forall (fun x => x <> "" /\ lower x = x /\ rstrip x = x) ["pdf"; "tar.gz"]
  /\ (2 <= 3)%nat.
Proof.
  exact (proj2 (normalize_extensions_output [" .PDF "; ""; "Tar.GZ"]
                  ["pdf"; "tar.gz"] eq_refl)).
Defined.

(** X11: normalization does not look at case: a list of extensions and
    the list of their lowercase forms normalize alike. *)
Theorem normalize_extensions_ignores_case (extensions : list string) :
  normalize_extensions (map lower extensions)
  = normalize_extensions extensions.
Proof.
  rewrite !normalize_extensions_closed. unfold normalized.
  replace (omap normalize_one (map lower extensions))
    with (omap normalize_one extensions); [done|].
  induction extensions as [|ext exts IH]; [done|]. csimpl.
  by rewrite normalize_one_lower, IH.
Qed.

(** X12: the leading dot is optional: for extensions that are non-empty,
    carry no surrounding blank and do not start with a dot, the list
    normalizes to its lowercase forms, with a dot put before every
    extension or without. *)
Theorem normalize_extensions_optional_dot (extensions : list string) :
  extensions <> [] ->
  Forall (fun ext => strip ext = ext /\ ext <> ""
                     /\ startswith_dot ext = false) extensions ->
  normalize_extensions extensions = Ok (map lower extensions)
  /\ normalize_extensions (map (String ".") extensions)
     = Ok (map lower extensions).
Proof.
  intros Hne Hclean. rewrite !normalize_extensions_closed. unfold normalized.
  assert (Hboth : omap normalize_one extensions = map lower extensions
                  /\ omap normalize_one (map (String ".") extensions)
                     = map lower extensions).
  { induction Hclean as [|ext exts (Hs & He & Hd) _ IH]; [done|]. csimpl.
    destruct (normalize_one_clean ext Hs He Hd) as [-> ->]. csimpl.
    destruct exts as [|ext' exts']; [done|].
    destruct IH as [-> ->]; done. }
  destruct Hboth as [-> ->]. by destruct extensions.
Qed.

Lemma normalize_extensions_optional_dot_witness :
  normalize_extensions ["PDF"; "jpg"] = Ok ["pdf"; "jpg"]
  /\ normalize_extensions [".PDF"; ".jpg"] = Ok ["pdf"; "jpg"].
Proof.
  apply (normalize_extensions_optional_dot ["PDF"; "jpg"]); [done|].
  repeat (constructor; [by repeat split|]). constructor.
Defined.

End NormalizedExtensions.

(** ** The loaded table: shape and order *)

Section LoadedTable.

(** The frame [load_metadata_frame] builds from flattened records. *)
Lemma loaded_frame (ds : list dict) :
  reindex_columns (sorted (columns (frame_of_dicts ds))) (frame_of_dicts ds)
  = mkFrame (sorted (all_keys ds))
      (map (fun d => map (fun c => default nan (dict_get c d))
                       (sorted (all_keys ds))) ds).
Proof.
  unfold reindex_columns. simpl. f_equal. rewrite map_map.
  apply map_ext. intros d. apply map_ext_in. intros c Hc.
  assert (Hin : c ∈ all_keys ds)
    by (rewrite <- (sorted_perm (all_keys ds)); by apply list_elem_of_In).
  apply list_elem_of_lookup in Hin as [j Hj].
  apply (frame_of_dicts_cell ds d j c Hj).
Qed.

Lemma load_metadata_frame_inv (files : json_files) (json_path : string)
    (frame : DataFrame) :
  load_metadata_frame files json_path = Ok (Some frame) ->
  exists records ds,
    _load_json_documents files json_path = Ok records
    /\ mapM simple_json_normalize records = Some ds
    /\ frame = mkFrame (sorted (all_keys ds))
                 (map (fun d => map (fun c => default nan (dict_get c d))
                                  (sorted (all_keys ds))) ds).
Proof.
  unfold load_metadata_frame, json_normalize.
  destruct (_load_json_documents files json_path) as [records|]; [|done].
  unfold bind.
  destruct (mapM simple_json_normalize records) as [ds|] eqn:Hds; [|done].
  intros H. exists records, ds. rewrite <- loaded_frame.
  change (Ok (Some (reindex_columns (sorted (columns (frame_of_dicts ds)))
                      (frame_of_dicts ds))) = Ok (Some frame)) in H.
  by injection H as <-.
Qed.

(** X13: whatever the file holds, a loaded table is rectangular and
    ordered: there is one row per record the loader returned, every row
    has one cell per column, and the column labels ascend strictly, so
    that no label occurs twice. *)
Theorem load_metadata_frame_shape (files : json_files) (json_path : string)
    (frame : DataFrame) :
  load_metadata_frame files json_path = Ok (Some frame) ->
  (exists records,
     _load_json_documents files json_path = Ok records
     /\ length (rows frame) = length records)
  /\ Forall (fun row => length row = length (columns frame)) (rows frame)
  /\ StronglySorted str_lt (columns frame)
  /\ NoDup (columns frame).
Proof.
  intros Hload.
  destruct (load_metadata_frame_inv _ _ _ Hload)
    as (records & ds & Hrec & Hds & ->). simpl.
  split; [|split; [|split]].
  - exists records. split; [done|].
    by rewrite length_map, (length_mapM _ _ _ Hds).
  - apply Forall_forall. intros row Hrow.
    apply list_elem_of_fmap in Hrow as (d & -> & _). by rewrite length_map.
  - apply sorted_strict, all_keys_NoDup.
  - rewrite sorted_perm. apply all_keys_NoDup.
Qed.

Lemma load_metadata_frame_shape_witness :
  let files : json_files := fun _ =>
    Ok (VList [VDict [("b", VInt 1)]; VInt 7;
               VDict [("a", VDict [("x", VNone)]); ("b", VStr "s")]]) in
  Forall (fun row => length row = 2%nat)
    [[nan; VInt 1]; [nan; nan]; [VNone; VStr "s"]]
  /\ StronglySorted str_lt ["a.x"; "b"].
Proof.
  intros files.
  destruct (load_metadata_frame_shape files "dump.json"
              (mkFrame ["a.x"; "b"]
                 [[nan; VInt 1]; [nan; nan]; [VNone; VStr "s"]]) eq_refl)
    as (_ & Hrect & Hsorted & _).
  by split.
Defined.

Lemma load_records (files : json_files) (json_path : string)
    (records : list dict) :
  files json_path = Ok (VList (map VDict records)) ->
  let ds := map normalise_json_ordered records in
  load_metadata_frame files json_path
  = Ok (Some (mkFrame (sorted (all_keys ds))
                (map (fun d => map (fun c => default nan (dict_get c d))
                                 (sorted (all_keys ds))) ds))).
Proof.
  intros Hfile ds. rewrite <- loaded_frame.
  unfold load_metadata_frame, _load_json_documents, json_normalize.
  rewrite Hfile. unfold bind. by rewrite records_normalize.
Qed.

(** Sorting gives one list for all lists of the same distinct labels. *)
Lemma sorted_canonical (l k : list string) :
  NoDup l -> NoDup k -> (forall x, x ∈ l <-> x ∈ k) -> sorted l = sorted k.
Proof.
  intros Hl Hk Hlk.
  apply (@StronglySorted_unique _ str_le str_le_antisym);
    try apply sorted_ascending.
  rewrite !sorted_perm. by apply NoDup_Permutation.
Qed.

(** X14: the order of the records in the file does not change the columns
    of the table, and only reorders its rows. *)
Theorem load_metadata_frame_record_order (files : json_files)
    (path1 path2 : string) (records1 records2 : list dict) :
  records1 ≡ₚ records2 ->
  files path1 = Ok (VList (map VDict records1)) ->
  files path2 = Ok (VList (map VDict records2)) ->
  exists frame1 frame2,
    load_metadata_frame files path1 = Ok (Some frame1)
    /\ load_metadata_frame files path2 = Ok (Some frame2)
    /\ columns frame1 = columns frame2
    /\ rows frame1 ≡ₚ rows frame2.
Proof.
  intros Hperm H1 H2.
  rewrite (load_records _ _ _ H1), (load_records _ _ _ H2).
  eexists _, _. split; [done|]. split; [done|]. simpl.
  set (ds1 := map normalise_json_ordered records1).
  set (ds2 := map normalise_json_ordered records2).
  assert (Hds : ds1 ≡ₚ ds2) by (unfold ds1, ds2; by rewrite Hperm).
  assert (Hcols : sorted (all_keys ds1) = sorted (all_keys ds2)).
  { apply sorted_canonical; try apply all_keys_NoDup.
    intros x. rewrite !all_keys_elem. by setoid_rewrite Hds. }
  split; [done|]. rewrite Hcols.
  change (map ?f ds1) with (f <$> ds1). change (map ?f ds2) with (f <$> ds2).
  by rewrite Hds.
Qed.

Lemma load_metadata_frame_record_order_witness :
  let files : json_files := fun path =>
    if String.eqb path "a.json"
    then Ok (VList (map VDict [[("x", VInt 1)]; [("y", VInt 2)]]))
    else Ok (VList (map VDict [[("y", VInt 2)]; [("x", VInt 1)]])) in
  exists frame1 frame2,
    load_metadata_frame files "a.json" = Ok (Some frame1)
    /\ load_metadata_frame files "b.json" = Ok (Some frame2)
    /\ columns frame1 = columns frame2
    /\ rows frame1 ≡ₚ rows frame2.
Proof.
  intros files.
  apply (load_metadata_frame_record_order files "a.json" "b.json"
           [[("x", VInt 1)]; [("y", VInt 2)]]
           [[("y", VInt 2)]; [("x", VInt 1)]]); [|reflexivity..].
  apply perm_swap.
Defined.

(** X15: records without any value to flatten (no record at all, empty
    objects, objects of empty objects) load to a table without columns,
    and summarizing that table raises the key error on [Tag]. *)
Theorem summarize_columns_no_column (files : json_files) (json_path : string)
    (records : list dict) :
  files json_path = Ok (VList (map VDict records)) ->
  Forall (fun r => key_paths r = []) records ->
  exists frame,
    load_metadata_frame files json_path = Ok (Some frame)
    /\ columns frame = []
    /\ length (rows frame) = length records
    /\ summarize_columns frame = Raise (KeyError "Tag").
Proof.
  intros Hfile Hempty. rewrite (load_records _ _ _ Hfile).
  set (ds := map normalise_json_ordered records).
  assert (Hkeys : all_keys ds = []).
  { destruct (all_keys ds) as [|k ks] eqn:Hk; [done|].
    assert (Hin : k ∈ all_keys ds) by (rewrite Hk; left).
    apply all_keys_elem in Hin as (d & Hd & Hkd).
    apply list_elem_of_fmap in Hd as (r & -> & Hr).
    apply normalise_json_ordered_keys in Hkd as (p & Hp & _).
    rewrite Forall_forall in Hempty. rewrite (Hempty r Hr) in Hp.
    by inversion Hp. }
  eexists. split; [done|]. rewrite Hkeys. simpl.
  split; [done|]. split; [unfold ds; by rewrite !length_map|done].
Qed.

Lemma summarize_columns_no_column_witness :
  exists frame,
    load_metadata_frame
      (fun _ => Ok (VList (map VDict [[]; [("a", VDict [])]]))) "dump.json"
    = Ok (Some frame)
    /\ columns frame = []
    /\ length (rows frame) = 2%nat
    /\ summarize_columns frame = Raise (KeyError "Tag").
Proof.
  apply (summarize_columns_no_column
           (fun _ => Ok (VList (map VDict [[]; [("a", VDict [])]])))
           "dump.json" [[]; [("a", VDict [])]] eq_refl).
  repeat (constructor; [reflexivity|]). constructor.
Defined.

End LoadedTable.

(** ** The summary: tags, counts and failures *)

Section SummaryProperties.

Lemma unique_by_grows {A} (eqb : A -> A -> bool) (l seen : list A) :
  (length seen <= length (unique_by eqb seen l))%nat.
Proof.
  revert seen. induction l as [|x l IH]; intros seen; simpl; [lia|].
  destruct (existsb (eqb x) seen); [apply IH|].
  specialize (IH (seen ++ [x])). rewrite length_app in IH. simpl in IH. lia.
Qed.

Lemma unique_by_nil {A} (eqb : A -> A -> bool) (l : list A) :
  unique_by eqb [] l = [] <-> l = [].
Proof.
  split; [|by intros ->]. destruct l as [|x l]; [done|]. simpl. intros H.
  pose proof (unique_by_grows eqb l [x]) as Hlen. rewrite H in Hlen.
  simpl in Hlen. lia.
Qed.

(** What [nunique] returns against the count of present cells. *)
Lemma nunique_zero (s : list value) (u : Z) :
  nunique s = Ok u -> (u = 0 <-> notna_sum s = 0).
Proof.
  unfold nunique, notna_sum. destruct (List.find _ s); [done|].
  intros [= <-]. rewrite <- !Nat2Z.inj_0, !Nat2Z.inj_iff.
  rewrite !length_zero_iff_nil. apply unique_by_nil.
Qed.

Lemma notna_sum_bound (f : DataFrame) (c : string) :
  0 <= notna_sum (series f c) <= Z.of_nat (length (rows f)).
Proof.
  unfold notna_sum, series. split; [lia|]. apply Nat2Z.inj_le.
  rewrite <- (length_map (fun row => cell f row c) (rows f)).
  apply length_filter.
Qed.

(** The rows the loop adds: one per column, in order, each with the
    counts of its column. *)
Lemma summary_loop_rows (f : DataFrame) (cols : list string)
    (acc summary_rows : list SummaryRow) :
  summary_loop f cols acc = Ok summary_rows ->
  exists new_rows,
    summary_rows = acc ++ new_rows
    /\ map Tag new_rows = cols
    /\ Forall (fun r =>
                 NonNullCount r = Some (notna_sum (series f (Tag r)))
                 /\ exists u, UniqueValues r = Some u
                              /\ nunique (series f (Tag r)) = Ok u) new_rows.
Proof.
  revert acc. induction cols as [|column cols IH]; intros acc; simpl.
  - intros [= <-]. exists []. by rewrite app_nil_r.
  - destruct (nunique (series f column)) as [u|] eqn:Hu; [|done]. simpl.
    intros Hloop. apply IH in Hloop as (new_rows & -> & Htags & Hall).
    exists (mkSummary column (Some (notna_sum (series f column))) (Some u)
              :: new_rows).
    rewrite <- app_assoc. split; [done|]. simpl. rewrite Htags.
    split; [done|]. constructor; [|done]. simpl. eauto.
Qed.

Lemma summarize_columns_inv (frame : DataFrame)
    (summary : list (nat * SummaryRow)) :
  summarize_columns frame = Ok summary ->
  exists summary_rows,
    summary = reset_index (sort_values Tag (range_index summary_rows))
    /\ summary.*2 ≡ₚ summary_rows
    /\ map Tag summary_rows = columns frame
    /\ Forall (fun r =>
                 NonNullCount r = Some (notna_sum (series frame (Tag r)))
                 /\ exists u, UniqueValues r = Some u
                              /\ nunique (series frame (Tag r)) = Ok u)
         summary_rows.
Proof.
  unfold summarize_columns.
  destruct (summary_loop frame (columns frame) []) as [rows|] eqn:Hloop;
    [|done].
  apply summary_loop_rows in Hloop as (new_rows & -> & Htags & Hall).
  simpl. destruct new_rows as [|r rows]; [done|]. intros [= <-].
  exists (r :: rows). split; [done|]. split; [|done].
  unfold reset_index. rewrite range_index_rows.
  change (map snd ?t) with (t.*2).
  by rewrite sort_values_perm, range_index_rows.
Qed.

(** X16: the tags of a summary are the column labels of the table in
    ascending order, and its index runs from zero. *)
Theorem summarize_columns_tags (frame : DataFrame)
    (summary : list (nat * SummaryRow)) :
  summarize_columns frame = Ok summary ->
  map Tag summary.*2 = sorted (columns frame)
  /\ summary.*1 = List.seq 0 (length (columns frame)).
Proof.
  intros Hsum.
  destruct (summarize_columns_inv _ _ Hsum) as (rows & -> & Hperm & Htags & _).
  split.
  - apply (@StronglySorted_unique _ str_le str_le_antisym).
    + unfold reset_index. rewrite range_index_rows, map_map.
      apply sort_values_sorted.
    + apply sorted_ascending.
    + rewrite sorted_perm, <- Htags.
      change (map Tag ?l) with (Tag <$> l). by rewrite Hperm.
  - unfold reset_index. rewrite range_index_labels, <- Htags.
    rewrite length_map, <- (length_fmap snd (sort_values Tag _)).
    change (map snd ?t) with (t.*2).
    by rewrite sort_values_perm, range_index_rows, length_map.
Qed.

Lemma summarize_columns_tags_witness :
  let frame := mkFrame ["b"; "a"]
                 [[VNone; VInt 1]; [VStr "x"; VBool true]; [nan; VInt 2]] in
  map Tag [mkSummary "a" (Some 3) (Some 2); mkSummary "b" (Some 1) (Some 1)]
  = sorted ["b"; "a"]
  /\ [0; 1]%nat = List.seq 0 2.
Proof.
  intros frame.
  exact (summarize_columns_tags frame
           [(0%nat, mkSummary "a" (Some 3) (Some 2));
            (1%nat, mkSummary "b" (Some 1) (Some 1))] eq_refl).
Defined.

(** X17: every row of a summary belongs to a column of the table: its
    non-null count is the number of present cells of that column, at most
    the number of rows of the table, and its unique-value count is zero
    exactly when the column has no present cell. *)
Theorem summarize_columns_counts (frame : DataFrame)
    (summary : list (nat * SummaryRow)) :
  summarize_columns frame = Ok summary ->
  Forall (fun ir =>
            Tag (snd ir) ∈ columns frame
            /\ exists n u,
                 NonNullCount (snd ir) = Some n
                 /\ UniqueValues (snd ir) = Some u
                 /\ n = Z.of_nat (length (filter notna
                                            (series frame (Tag (snd ir)))))
                 /\ n <= Z.of_nat (length (rows frame))
                 /\ (u = 0 <-> n = 0)) summary.
Proof.
  intros Hsum.
  destruct (summarize_columns_inv _ _ Hsum) as (rows & _ & Hperm & Htags & Hall).
  apply Forall_forall. intros ir Hir.
  assert (Hr : ir.2 ∈ rows) by (rewrite <- Hperm; by apply list_elem_of_fmap_2).
  rewrite Forall_forall in Hall. destruct (Hall _ Hr) as (Hn & u & Hu & Hnu).
  split.
  - rewrite <- Htags. by apply (list_elem_of_fmap_2 Tag).
  - exists (notna_sum (series frame (Tag ir.2))), u.
    repeat split; try done.
    + apply notna_sum_bound.
    + by apply (nunique_zero _ _ Hnu).
    + by apply (nunique_zero _ _ Hnu).
Qed.

Lemma summarize_columns_counts_witness :
  let frame := mkFrame ["b"; "a"]
                 [[VNone; VInt 1]; [nan; VBool true]; [nan; VInt 2]] in
  Forall (fun ir =>
            Tag (snd ir) ∈ columns frame
            /\ exists n u,
                 NonNullCount (snd ir) = Some n
                 /\ UniqueValues (snd ir) = Some u
                 /\ n = Z.of_nat (length (filter notna
                                            (series frame (Tag (snd ir)))))
                 /\ n <= Z.of_nat (length (rows frame))
                 /\ (u = 0 <-> n = 0))
    [(0%nat, mkSummary "a" (Some 3) (Some 2));
     (1%nat, mkSummary "b" (Some 0) (Some 0))].
Proof.
  intros frame. exact (summarize_columns_counts frame _ eq_refl).
Defined.

Lemma nunique_raises (s : list value) (v : value) :
  v ∈ s -> hashable v = false -> exists msg, nunique s = Raise (TypeError msg).
Proof.
  intros Hv Hh. unfold nunique.
  destruct (List.find (fun v => negb (hashable v)) s) as [v'|] eqn:Hf;
    [by eexists|].
  apply list_elem_of_In in Hv.
  pose proof (find_none _ _ Hf v Hv) as Hnone. simpl in Hnone.
  by rewrite Hh in Hnone.
Qed.

Lemma nunique_error (s : list value) (x : exn) :
  nunique s = Raise x -> exists msg, x = TypeError msg.
Proof.
  unfold nunique. destruct (List.find _ s); [|done]. intros [= <-]. by eexists.
Qed.

Lemma summary_loop_raises (f : DataFrame) (cols : list string)
    (acc : list SummaryRow) (c : string) (v : value) :
  c ∈ cols -> v ∈ series f c -> hashable v = false ->
  exists msg, summary_loop f cols acc = Raise (TypeError msg).
Proof.
  intros Hc Hv Hh. revert acc.
  induction cols as [|column cols IH]; intros acc; [by inversion Hc|].
  simpl. destruct (nunique (series f column)) as [u|x] eqn:Hu.
  - simpl. apply IH. apply elem_of_cons in Hc as [-> | Hc]; [|done].
    destruct (nunique_raises _ _ Hv Hh) as [msg Hmsg]. congruence.
  - simpl. destruct (nunique_error _ _ Hu) as [msg ->]. by eexists.
Qed.

(** X18: a table with a cell that cannot be hashed, a list or a dict,
    cannot be summarized: [summarize_columns] raises a type error. *)
Theorem summarize_columns_unhashable (frame : DataFrame) (c : string)
    (v : value) :
  c ∈ columns frame -> v ∈ series frame c -> hashable v = false ->
  exists msg, summarize_columns frame = Raise (TypeError msg).
Proof.
  intros Hc Hv Hh. unfold summarize_columns.
  destruct (summary_loop_raises frame (columns frame) [] c v Hc Hv Hh)
    as [msg ->].
  by exists msg.
Qed.

Lemma summarize_columns_unhashable_witness :
  exists msg,
    summarize_columns
      (mkFrame ["Keywords"; "Title"]
         [[VList [VStr "a"; VStr "b"]; VStr "t"]; [nan; VStr "u"]])
    = Raise (TypeError msg).
Proof.
  apply (summarize_columns_unhashable _ "Keywords" (VList [VStr "a"; VStr "b"])).
  - by left.
  - by left.
  - reflexivity.
Defined.

End SummaryProperties.

(** ** The differ: order, symmetry and the empty diff *)

Section DiffProperties.

Lemma sorted_by_key {R} (key : R -> string) (l : list R) :
  StronglySorted str_le (map key l) ->
  StronglySorted (fun a b => str_le (key a) (key b)) l.
Proof.
  induction l as [|x l IH]; simpl; intros H; [constructor|].
  apply StronglySorted_inv in H as [Hl Hx]. constructor; [by apply IH|].
  rewrite Forall_forall in Hx. apply Forall_forall. intros y Hy.
  apply Hx. by apply (list_elem_of_fmap_2 key).
Qed.

Lemma key_inj {R} (key : R -> string) (l : list R) (x y : R) :
  NoDup (map key l) -> x ∈ l -> y ∈ l -> key x = key y -> x = y.
Proof.
  induction l as [|z l IH]; simpl; intros Hnd Hx Hy Hk; [by inversion Hx|].
  apply NoDup_cons in Hnd as [Hz Hnd].
  apply elem_of_cons in Hx as [-> | Hx];
    apply elem_of_cons in Hy as [-> | Hy]; [done | | | by apply IH].
  - destruct Hz. rewrite Hk. by apply (list_elem_of_fmap_2 key).
  - destruct Hz. rewrite <- Hk. by apply (list_elem_of_fmap_2 key).
Qed.

(** Rows in ascending order of a key that no two of them share are in
    the one possible order. *)
Lemma sorted_rows_unique {R} (key : R -> string) (l1 l2 : list R) :
  StronglySorted str_le (map key l1) -> StronglySorted str_le (map key l2) ->
  NoDup (map key l2) -> l1 ≡ₚ l2 -> l1 = l2.
Proof.
  intros H1 H2 Hnd Hp.
  apply (StronglySorted_unique_strong (fun a b => str_le (key a) (key b)));
    [|by apply sorted_by_key..|done].
  intros x1 x2 Hx1 Hx2 Hle Hge.
  apply (key_inj key l2); [done | by rewrite <- Hp | done|].
  by apply str_le_antisym.
Qed.

Lemma sorted_filter (P : string -> bool) (l : list string) :
  StronglySorted str_le l -> StronglySorted str_le (filter P l).
Proof.
  induction l as [|x l IH]; intros H; [constructor|].
  apply StronglySorted_inv in H as [Hl Hx]. rewrite filter_cons.
  destruct (P x); simpl; [|by apply IH].
  constructor; [by apply IH|].
  rewrite Forall_forall in Hx. apply Forall_forall. intros y Hy.
  apply list_elem_of_filter in Hy as [_ Hy]. by apply Hx.
Qed.

Lemma diff_rows_tags (new existing : table SummaryRow) :
  StronglySorted str_le (map MTag (diff_rows new existing))
  /\ NoDup (map MTag (diff_rows new existing)).
Proof.
  unfold diff_rows. rewrite tags_of_filtered. split.
  - apply sorted_filter, sorted_ascending.
  - apply NoDup_filter, join_keys_spec.
Qed.

(** With distinct tags on each side, the diff is the list of the
    mismatching rows of the outer join in the order of the keys, indexed
    from zero. *)
Lemma compare_summaries_exact (new existing : table SummaryRow) :
  NoDup (tags new) -> NoDup (tags existing) ->
  compare_summaries new existing = range_index (diff_rows new existing).
Proof.
  intros Hn He.
  pose proof (compare_summaries_rows new existing Hn He) as Hrows.
  unfold compare_summaries, reset_index in *.
  rewrite range_index_rows in Hrows. f_equal.
  destruct (diff_rows_tags new existing) as [Hsorted Hnd].
  apply (sorted_rows_unique MTag); [|done..].
  rewrite map_map. apply sort_values_sorted.
Qed.

Lemma join_keys_comm (new existing : table SummaryRow) :
  join_keys existing new = join_keys new existing.
Proof.
  unfold join_keys.
  destruct (add_labels_spec (map Tag existing.*2 ++ map Tag new.*2) [])
    as [Hin1 Hnd1].
  destruct (add_labels_spec (map Tag new.*2 ++ map Tag existing.*2) [])
    as [Hin2 Hnd2].
  apply sorted_canonical; [apply Hnd2, NoDup_nil_2 | apply Hnd1, NoDup_nil_2 |].
  intros k. rewrite Hin1, Hin2. set_solver.
Qed.

Lemma mismatch_mirror (r : MergedRow) : mismatch (mirror r) = mismatch r.
Proof.
  unfold mismatch, mirror. simpl.
  assert (Hne : forall a b, ne a b = ne b a).
  { intros [x|] [y|]; simpl; try done. by rewrite Z.eqb_sym. }
  by rewrite (Hne (NonNullCount_new r)), (Hne (UniqueValues_new r)).
Qed.

Lemma diff_rows_mirror (new existing : table SummaryRow) :
  diff_rows existing new = map mirror (diff_rows new existing).
Proof.
  unfold diff_rows. rewrite join_keys_comm.
  induction (join_keys new existing) as [|k keys IH]; [done|]. csimpl.
  rewrite !filter_cons.
  change (outer_row existing new k) with (mirror (outer_row new existing k)).
  rewrite mismatch_mirror.
  destruct (mismatch (outer_row new existing k)); csimpl; by rewrite IH.
Qed.

Lemma range_index_map {R S} (f : R -> S) (rs : list R) :
  range_index (map f rs)
  = map (fun ir => (fst ir, f (snd ir))) (range_index rs).
Proof.
  unfold range_index. rewrite length_map. generalize 0%nat.
  induction rs as [|r rs IH]; intros n; [done|]. simpl. by rewrite IH.
Qed.

Lemma range_index_nil {R} (rs : list R) : range_index rs = [] <-> rs = [].
Proof. by destruct rs. Qed.

Lemma ne_false (a b : option Z) :
  ne a b = false <-> exists x, a = Some x /\ b = Some x.
Proof.
  destruct a as [x|], b as [y|]; simpl.
  - rewrite negb_false_iff, Z.eqb_eq. split; [intros ->; eauto|].
    by intros (z & [= ->] & [= ->]).
  - split; [done | by intros (z & _ & ?)].
  - split; [done | by intros (z & ? & _)].
  - split; [done | by intros (z & ? & _)].
Qed.

(** The diff is empty exactly when every tag of either side has the same
    two integers on both sides. *)
Lemma diff_rows_nil (new existing : table SummaryRow) :
  diff_rows new existing = []
  <-> forall tag, tag ∈ tags new \/ tag ∈ tags existing ->
        exists n u, stats_of new tag = (Some n, Some u)
                    /\ stats_of existing tag = (Some n, Some u).
Proof.
  destruct (join_keys_spec new existing) as [Hkeys _].
  assert (Hrow : forall tag,
             mismatch (outer_row new existing tag) = false
             <-> exists n u, stats_of new tag = (Some n, Some u)
                             /\ stats_of existing tag = (Some n, Some u)).
  { intros tag. unfold mismatch, outer_row. simpl.
    rewrite orb_false_iff, !ne_false.
    destruct (stats_of new tag) as [a b], (stats_of existing tag) as [c d].
    simpl. split.
    - intros [(n & -> & ->) (u & -> & ->)]. by exists n, u.
    - intros (n & u & [= -> ->] & [= -> ->]). split; eauto. }
  unfold diff_rows. split.
  - intros Hnil tag Htag. apply Hrow. apply Hkeys in Htag.
    destruct (mismatch (outer_row new existing tag)) eqn:Hm; [|done].
    assert (Hin : outer_row new existing tag
                  ∈ filter mismatch
                      (map (outer_row new existing) (join_keys new existing))).
    { apply list_elem_of_filter. split; [by rewrite Hm|].
      by apply (list_elem_of_fmap_2 (outer_row new existing)). }
    rewrite Hnil in Hin. by inversion Hin.
  - intros Hall.
    destruct (filter mismatch _) as [|row rest] eqn:Hf; [done|].
    assert (Hin : row ∈ filter mismatch
                    (map (outer_row new existing) (join_keys new existing)))
      by (rewrite Hf; left).
    apply list_elem_of_filter in Hin as [Hm Hin].
    apply list_elem_of_fmap in Hin as (tag & -> & Htag).
    apply Hkeys, Hall, Hrow in Htag. by rewrite Htag in Hm.
Qed.

(** X19: exchanging the two summaries gives the same diff seen from the
    other side: the same rows under the same index, with the old and the
    new statistics exchanged. *)
Theorem compare_summaries_mirror (new existing : table SummaryRow) :
  NoDup (tags new) -> NoDup (tags existing) ->
  compare_summaries existing new
  = map (fun ir => (fst ir, mirror (snd ir))) (compare_summaries new existing).
Proof.
  intros Hn He.
  rewrite (compare_summaries_exact existing new He Hn).
  rewrite (compare_summaries_exact new existing Hn He).
  by rewrite diff_rows_mirror, range_index_map.
Qed.

Lemma compare_summaries_mirror_witness :
  let new := [(0%nat, mkSummary "x" (Some 5) (Some 3));
              (1%nat, mkSummary "a" (Some 2) (Some 1))] in
  let existing := [(0%nat, mkSummary "x" (Some 5) (Some 4));
                   (1%nat, mkSummary "z" (Some 1) (Some 1))] in
  compare_summaries existing new
  = map (fun ir => (fst ir, mirror (snd ir))) (compare_summaries new existing).
Proof.
  intros new existing. apply compare_summaries_mirror.
  - exact (bool_decide_unpack (NoDup (tags new)) I).
  - exact (bool_decide_unpack (NoDup (tags existing)) I).
Defined.

(** X20: with distinct tags on each side, the diff is empty exactly when
    the two summaries have the same tags and every tag has the same two
    integers, no empty cell, on both sides. *)
Theorem compare_summaries_empty_iff (new existing : table SummaryRow) :
  NoDup (tags new) -> NoDup (tags existing) ->
  compare_summaries new existing = []
  <-> (forall tag, tag ∈ tags new <-> tag ∈ tags existing)
      /\ (forall tag, tag ∈ tags new ->
            exists n u, stats_of new tag = (Some n, Some u)
                        /\ stats_of existing tag = (Some n, Some u)).
Proof.
  intros Hn He. rewrite (compare_summaries_exact new existing Hn He).
  rewrite range_index_nil, diff_rows_nil. split.
  - intros Hall. split; [|by eauto].
    intros tag. split; intros Htag.
    + destruct (decide (tag ∈ tags existing)) as [|Habs]; [done|].
      destruct (Hall tag (or_introl Htag)) as (n & u & _ & Hex).
      by rewrite (stats_of_absent _ _ Habs) in Hex.
    + destruct (decide (tag ∈ tags new)) as [|Habs]; [done|].
      destruct (Hall tag (or_intror Htag)) as (n & u & Hnew & _).
      by rewrite (stats_of_absent _ _ Habs) in Hnew.
  - intros [Hsame Hall] tag [Htag | Htag]; apply Hall; [done|].
    by apply Hsame.
Qed.

Lemma compare_summaries_empty_iff_witness :
  compare_summaries
    [(0%nat, mkSummary "a" (Some 3) (Some 2));
     (1%nat, mkSummary "b" (Some 1) (Some 1))]
    [(0%nat, mkSummary "b" (Some 1) (Some 1));
     (1%nat, mkSummary "a" (Some 3) (Some 2))]
  = [].
Proof.
  apply compare_summaries_empty_iff.
  - exact (bool_decide_unpack (NoDup ["a"; "b"]) I).
  - exact (bool_decide_unpack (NoDup ["b"; "a"]) I).
  - split.
    + intros tag. change (tag ∈ ["a"; "b"] <-> tag ∈ ["b"; "a"]). set_solver.
    + intros tag Htag. change (tag ∈ ["a"; "b"]) in Htag.
      apply elem_of_cons in Htag as [-> | Htag]; [by exists 3, 2|].
      apply elem_of_cons in Htag as [-> | Htag]; [by exists 1, 1|].
      by inversion Htag.
Defined.

End DiffProperties.

(** ** From the file to the diff *)

Section Pipeline.

(** A flattened record is flat: its values are leaves. *)
Lemma normalise_json_ordered_flat (data : dict) :
  flat (normalise_json_ordered data).
Proof.
  apply Forall_forall. intros [k x] Hin.
  apply normalise_json_ordered_elem in Hin as (p & Hp & _).
  by apply (leaves_not_dict _ _ _ Hp).
Qed.

Lemma dict_get_flat (c : string) (d : dict) :
  flat d -> is_dict (default nan (dict_get c d)) = false.
Proof.
  unfold flat. induction d as [|[k v] d IH]; simpl; intros Hd; [done|].
  apply Forall_cons in Hd as [Hv Hd]. destruct (String.eqb k c); auto.
Qed.

Lemma simple_json_normalize_flat (record : value) (d : dict) :
  simple_json_normalize record = Some d -> flat d.
Proof.
  destruct record; simpl; intros [= <-]; try constructor.
  apply normalise_json_ordered_flat.
Qed.

Lemma loaded_cells (files : json_files) (json_path : string)
    (frame : DataFrame) :
  load_metadata_frame files json_path = Ok (Some frame) ->
  Forall (Forall (fun v => is_dict v = false)) (rows frame).
Proof.
  intros Hload.
  destruct (load_metadata_frame_inv _ _ _ Hload)
    as (records & ds & _ & Hds & ->). simpl.
  apply mapM_Some in Hds.
  apply Forall_forall. intros row Hrow.
  apply list_elem_of_fmap in Hrow as (d & -> & Hd).
  apply Forall_forall. intros v Hv.
  apply list_elem_of_fmap in Hv as (c & -> & _).
  apply dict_get_flat.
  apply list_elem_of_lookup in Hd as [i Hi].
  destruct (Forall2_lookup_r _ _ _ _ _ Hds Hi) as (record & _ & Hrec).
  by apply (simple_json_normalize_flat record).
Qed.

Lemma series_cell (f : DataFrame) (c : string) (v : value) :
  v ∈ series f c -> v = nan \/ exists row, row ∈ rows f /\ v ∈ row.
Proof.
  unfold series. intros Hv.
  apply list_elem_of_fmap in Hv as (row & -> & Hrow). unfold cell.
  destruct (index_of c (columns f)) as [i|]; [|by left].
  destruct (row !! i) as [v|] eqn:Hv; [|by left].
  right. exists row. split; [done|]. by eapply list_elem_of_lookup_2.
Qed.

Lemma nunique_raise (s : list value) (x : exn) :
  nunique s = Raise x ->
  exists v, v ∈ s /\ hashable v = false
            /\ x = TypeError ("unhashable type: '" +:+ type_name v +:+ "'").
Proof.
  unfold nunique.
  destruct (List.find (fun v => negb (hashable v)) s) as [v|] eqn:Hf; [|done].
  intros [= <-]. apply find_some in Hf as [Hin Hh].
  exists v. split; [by apply list_elem_of_In|].
  split; [by destruct (hashable v) | done].
Qed.

Lemma summary_loop_raise (f : DataFrame) (cols : list string)
    (acc : list SummaryRow) (x : exn) :
  summary_loop f cols acc = Raise x ->
  exists c, c ∈ cols /\ nunique (series f c) = Raise x.
Proof.
  revert acc. induction cols as [|column cols IH]; intros acc; simpl; [done|].
  destruct (nunique (series f column)) as [u|y] eqn:Hu; simpl.
  - intros Hloop. apply IH in Hloop as (c & Hc & Hraise).
    exists c. split; [by right | done].
  - intros [= <-]. exists column. split; [by left | done].
Qed.

(** The table is built from the flattened records exactly when no
    record is itself a list. *)
Lemma json_normalize_defined (records : list value) :
  is_Some (json_normalize records)
  <-> Forall (fun record => is_list record = false) records.
Proof.
  unfold json_normalize. rewrite fmap_is_Some, mapM_is_Some.
  apply Forall_iff. intros record. unfold compose.
  destruct record; simpl; split; try done; try (by eexists); by intros [d Hd].
Qed.

Lemma load_without_lists (files : json_files) (json_path : string)
    (records : list value) :
  _load_json_documents files json_path = Ok records ->
  Forall (fun record => is_list record = false) records ->
  exists frame, load_metadata_frame files json_path = Ok (Some frame).
Proof.
  intros Hload Hrecords. unfold load_metadata_frame.
  rewrite Hload. unfold bind.
  apply json_normalize_defined in Hrecords as [frame ->]. by eexists.
Qed.

(** X21: in the table loaded from a file none of whose records is itself
    a list, no cell is a dict: every nested object of a record is
    resolved into columns. *)
Theorem load_metadata_frame_cells (files : json_files) (json_path : string)
    (records : list value) :
  _load_json_documents files json_path = Ok records ->
  Forall (fun record => is_list record = false) records ->
  exists frame,
    load_metadata_frame files json_path = Ok (Some frame)
    /\ forall row v, row ∈ rows frame -> v ∈ row -> is_dict v = false.
Proof.
  intros Hrecords Hnolist.
  destruct (load_without_lists _ _ _ Hrecords Hnolist) as [frame Hload].
  exists frame. split; [done|]. intros row v Hrow Hv.
  pose proof (loaded_cells _ _ _ Hload) as Hcells.
  rewrite Forall_forall in Hcells. specialize (Hcells row Hrow).
  rewrite Forall_forall in Hcells. by apply Hcells.
Qed.

Lemma load_metadata_frame_cells_witness :
  let records :=
    [VDict [("a", VDict [("b", VDict [("c", VInt 1)]);
                         ("d", VList [VDict []])])];
     VInt 7;
     VDict [("a", VDict [])]] in
  exists frame,
    load_metadata_frame (fun _ => Ok (VList records)) "dump.json"
    = Ok (Some frame)
    /\ forall row v, row ∈ rows frame -> v ∈ row -> is_dict v = false.
Proof.
  intros records.
  apply (load_metadata_frame_cells (fun _ => Ok (VList records)) "dump.json"
           records eq_refl).
  repeat (constructor; [reflexivity|]). constructor.
Defined.

(** X22: summarizing the table loaded from a file none of whose records
    is itself a list ends in one of three ways: with a summary; with the
    key error on [Tag], when the table has no column; or with the type
    error of an unhashable list, when some cell holds a list. *)
Theorem summarize_loaded_table (files : json_files) (json_path : string)
    (records : list value) :
  _load_json_documents files json_path = Ok records ->
  Forall (fun record => is_list record = false) records ->
  exists frame,
    load_metadata_frame files json_path = Ok (Some frame)
    /\ ((exists summary, summarize_columns frame = Ok summary)
        \/ (columns frame = []
            /\ summarize_columns frame = Raise (KeyError "Tag"))
        \/ (summarize_columns frame
            = Raise (TypeError "unhashable type: 'list'")
            /\ exists row elems, row ∈ rows frame /\ VList elems ∈ row)).
Proof.
  intros Hrecords Hnolist.
  destruct (load_without_lists _ _ _ Hrecords Hnolist) as [frame Hload].
  exists frame. split; [done|]. unfold summarize_columns.
  destruct (summary_loop frame (columns frame) []) as [rs|x] eqn:Hloop; simpl.
  - destruct rs as [|r rs]; [|left; by eexists].
    right; left. split; [|done].
    apply summary_loop_rows in Hloop as (new_rows & Hnil & Htags & _).
    symmetry in Hnil. apply app_eq_nil in Hnil as [_ ->]. by rewrite <- Htags.
  - right; right.
    apply summary_loop_raise in Hloop as (c & _ & Hraise).
    apply nunique_raise in Hraise as (v & Hv & Hh & ->).
    apply series_cell in Hv as [-> | (row & Hrow & Hv)]; [done|].
    pose proof (loaded_cells _ _ _ Hload) as Hcells.
    rewrite Forall_forall in Hcells. specialize (Hcells row Hrow).
    rewrite Forall_forall in Hcells. specialize (Hcells v Hv).
    destruct v as [| | | | |elems|]; try done.
    split; [done|]. by exists row, elems.
Qed.

Lemma summarize_loaded_table_witness :
  let records := [VDict [("Keywords", VList [VStr "a"; VStr "b"])]; VInt 7] in
  exists frame,
    load_metadata_frame (fun _ => Ok (VList records)) "dump.json"
    = Ok (Some frame)
    /\ ((exists summary, summarize_columns frame = Ok summary)
        \/ (columns frame = []
            /\ summarize_columns frame = Raise (KeyError "Tag"))
        \/ (summarize_columns frame
            = Raise (TypeError "unhashable type: 'list'")
            /\ exists row elems, row ∈ rows frame /\ VList elems ∈ row)).
Proof.
  intros records.
  apply (summarize_loaded_table (fun _ => Ok (VList records)) "dump.json"
           records eq_refl).
  repeat (constructor; [reflexivity|]). constructor.
Defined.

(** X23: the summary of a table with distinct column labels, as every
    loaded table has them, compared with itself gives the empty diff. *)
Theorem summary_self_diff (frame : DataFrame)
    (summary : list (nat * SummaryRow)) :
  NoDup (columns frame) ->
  summarize_columns frame = Ok summary ->
  compare_summaries summary summary = [].
Proof.
  intros Hcols Hsum.
  destruct (summarize_columns_inv _ _ Hsum) as (rs & _ & Hperm & Htags & Hall).
  assert (Hnd : NoDup (tags summary)).
  { rewrite tags_rows. change (map Tag ?l) with (Tag <$> l).
    rewrite Hperm. change (Tag <$> ?l) with (map Tag l). by rewrite Htags. }
  rewrite (compare_summaries_exact summary summary Hnd Hnd).
  apply range_index_nil, diff_rows_nil. intros tag [Htag | Htag].
  all: rewrite tags_rows in Htag, Hnd.
  all: destruct (has_tag_present _ _ Hnd Htag) as (r & Hr & _ & _ & Hfind).
  all: rewrite Hperm in Hr; rewrite Forall_forall in Hall.
  all: destruct (Hall r Hr) as (Hn & u & Hu & _).
  all: unfold stats_of; change (map snd summary) with (summary.*2).
  all: rewrite Hfind, Hn, Hu; by eexists _, _.
Qed.

Lemma summary_self_diff_witness :
  let frame := mkFrame ["b"; "a"]
                 [[VNone; VInt 1]; [VStr "x"; VBool true]; [nan; VInt 2]] in
  compare_summaries
    [(0%nat, mkSummary "a" (Some 3) (Some 2));
     (1%nat, mkSummary "b" (Some 1) (Some 1))]
    [(0%nat, mkSummary "a" (Some 3) (Some 2));
     (1%nat, mkSummary "b" (Some 1) (Some 1))]
  = [].
Proof.
  intros frame. apply (summary_self_diff frame); [|reflexivity].
  exact (bool_decide_unpack (NoDup ["b"; "a"]) I).
Defined.

End Pipeline.
